(** * slc-event-scraper: the extraction pipeline of [src/main.ts]

    A shallow embedding of the pure core of the scraper (date
    normalisation, URL canonicalisation, selector resolution, per-block
    field extraction, output cleaning) and the properties its
    specification states about it.

    Conventions of the embedding.
    - A JavaScript string is the list of its code units.  The model keeps
      the code units below 256 (Basic Latin and Latin-1), which covers
      every literal of the sources; [lit] turns a Rocq string literal
      into such a list.
    - A JavaScript exception is the [Throw] outcome of the [result] type;
      [undefined] is [None].
    - What the host platform supplies (the clock behind [new Date()], the
      WHATWG [URL] parser, [String.prototype.toUpperCase], the
      structured-completion service, the DOM of the page) is a parameter
      of the function that uses it. *)

From Stdlib Require Import List Bool Ascii String ZArith Lia Arith Permutation.
Import ListNotations.

Local Open Scope Z_scope.

(** ** JavaScript strings *)

Module JS.

Definition jsstring := list ascii.

Definition lit (s : string) : jsstring := list_ascii_of_string s.

Definition code (c : ascii) : N := N_of_ascii c.

Definition jsstring_eqb (a b : jsstring) : bool :=
  if list_eq_dec ascii_dec a b then true else false.

(** Truthiness of a string value: non-empty. *)
Definition truthy (s : jsstring) : bool :=
  match s with [] => false | _ :: _ => true end.

(** [WhiteSpace] and [LineTerminator] code units below 256: TAB, LF, VT,
    FF, CR, SPACE and NO-BREAK SPACE.  This is the set removed by
    [trim()] and matched by [\s]. *)
Definition isWhiteSpace (c : ascii) : bool :=
  let n := code c in
  ((9 <=? n) && (n <=? 13) || (n =? 32) || (n =? 160))%N.

(** [\d] *)
Definition isDigit (c : ascii) : bool :=
  let n := code c in ((48 <=? n) && (n <=? 57))%N.

Fixpoint dropWhile (p : ascii -> bool) (s : jsstring) : jsstring :=
  match s with
  | [] => []
  | c :: s' => if p c then dropWhile p s' else s
  end.

Fixpoint takeWhile (p : ascii -> bool) (s : jsstring) : jsstring :=
  match s with
  | [] => []
  | c :: s' => if p c then c :: takeWhile p s' else []
  end.

(** [s.trim()] *)
Definition trim (s : jsstring) : jsstring :=
  rev (dropWhile isWhiteSpace (rev (dropWhile isWhiteSpace s))).

(** [s.split(sep)] for a one-character separator string: every
    occurrence of the separator ends a piece, so [n] occurrences give
    [n + 1] pieces, empty ones included. *)
Fixpoint split (sep : ascii) (s : jsstring) : list jsstring :=
  match s with
  | [] => [[]]
  | c :: s' =>
      if Ascii.eqb c sep then [] :: split sep s'
      else match split sep s' with
           | piece :: pieces => (c :: piece) :: pieces
           | [] => [[c]]
           end
  end.

(** The separator class of the regular expression [/[,\s]+/]. *)
Definition isDateSep (c : ascii) : bool :=
  Ascii.eqb c ","%char || isWhiteSpace c.

(** [s.split(/[,\s]+/)]: every maximal run of separator characters ends
    a piece; a run at the very start or end leaves an empty piece there.
    [inRun] tells that the previous character belonged to a separator
    run, which the current separator then merely extends. *)
Fixpoint splitRuns (inRun : bool) (s : jsstring) : list jsstring :=
  match s with
  | [] => [[]]
  | c :: s' =>
      if isDateSep c then
        if inRun then splitRuns true s' else [] :: splitRuns true s'
      else match splitRuns false s' with
           | piece :: pieces => (c :: piece) :: pieces
           | [] => [[c]]
           end
  end.

(** [s.slice(0, 3)] *)
Definition slice03 (s : jsstring) : jsstring := firstn 3 s.

(** [arr.includes(x)] on an array of strings. *)
Definition includes (arr : list jsstring) (x : jsstring) : bool :=
  existsb (jsstring_eqb x) arr.

(** [s.replace(/\D/g, empty)]: every character that is no digit goes. *)
Definition stripNonDigits (s : jsstring) : jsstring := filter isDigit s.

(** [String.prototype.toLowerCase] on one code unit below 256: the
    letters A-Z and the Latin-1 capitals U+00C0-U+00DE (the
    multiplication sign U+00D7 apart) move up by 32. *)
Definition lowerChar (c : ascii) : ascii :=
  let n := code c in
  if ((65 <=? n) && (n <=? 90) ||
      (192 <=? n) && (n <=? 222) && negb (n =? 215))%N
  then ascii_of_N (n + 32) else c.

Definition toLowerCase (s : jsstring) : jsstring := map lowerChar s.

(** [p] is a prefix of [s]. *)
Fixpoint startsWith (p s : jsstring) : bool :=
  match p, s with
  | [], _ => true
  | _ :: _, [] => false
  | a :: p', c :: s' => Ascii.eqb a c && startsWith p' s'
  end.

(** [s.includes(needle)] on strings: [needle] occurs at some position. *)
Fixpoint contains (needle s : jsstring) : bool :=
  startsWith needle s ||
  match s with
  | [] => false
  | _ :: s' => contains needle s'
  end.

(** [arr.join(sep)] *)
Fixpoint join (sep : jsstring) (arr : list jsstring) : jsstring :=
  match arr with
  | [] => []
  | [x] => x
  | x :: rest => x ++ sep ++ join sep rest
  end.

(** The decimal digits of a natural number, most significant first.
    [fuel] bounds the number of digits after the first. *)
Definition digitChar (d : Z) : ascii := ascii_of_N (48 + Z.to_N d).

Fixpoint digitsOf (fuel : nat) (n : Z) : jsstring :=
  match fuel with
  | O => [digitChar n]
  | S fuel' =>
      if n <? 10 then [digitChar n]
      else digitsOf fuel' (n / 10) ++ [digitChar (n mod 10)]
  end.

(** Decimal rendering of an integer, as [Number.prototype.toString] and
    template literals give it for every integer below 10^21. *)
Definition numberToString (n : Z) : jsstring :=
  if n <? 0 then "-"%char :: digitsOf (Z.to_nat (Z.log2 (- n))) (- n)
  else digitsOf (Z.to_nat (Z.log2 n)) n.

(** The value of a string of decimal digits, most significant first. *)
Definition digitValue (c : ascii) : Z := Z.of_N (code c) - 48.

Definition digitsValue (s : jsstring) : Z :=
  fold_left (fun acc c => 10 * acc + digitValue c) s 0.

(** [parseInt(s)] for a string [s] made of decimal digits only (the only
    strings the program hands to it, once the non-digits are gone): the
    number they denote, and [NaN] ([None]) for the empty string. *)
Definition parseInt (s : jsstring) : option Z :=
  match takeWhile isDigit s with
  | [] => None
  | ds => Some (digitsValue ds)
  end.

End JS.

(** ** Outcomes: a value, or a thrown exception *)

Inductive error : Type :=
| TypeError
| Rejected (reason : list ascii).

Inductive result (A : Type) : Type :=
| Ok (a : A)
| Throw (e : error).

Arguments Ok {A} a.
Arguments Throw {A} e.

Definition bind {A B : Type} (r : result A) (k : A -> result B) : result B :=
  match r with
  | Ok a => k a
  | Throw e => Throw e
  end.

Notation "x <- r ;; k" := (bind r (fun x => k))
  (at level 61, r at next level, right associativity).

(** [arr.map(f)] for a callback that may throw: the elements are visited
    in order and the first exception ends the traversal. *)
Fixpoint mapM {A B : Type} (f : A -> result B) (l : list A) : result (list B) :=
  match l with
  | [] => Ok []
  | a :: l' => b <- f a ;; bs <- mapM f l' ;; Ok (b :: bs)
  end.

(** [try { body } catch { handler }], and [promise.catch(handler)]. *)
Definition tryCatch {A : Type} (body : result A) (handler : error -> result A)
    : result A :=
  match body with
  | Ok a => Ok a
  | Throw e => handler e
  end.

(** ** The calendar of [Date] (ECMAScript, Time Values and Time Range)

    A [Date] built by [new Date(year, monthIndex, day)] denotes local
    midnight of a day; it is kept as the number of that day counted from
    1 January 1970, [None] being the invalid date (time value [NaN]).
    The fields read back ([getDay], [getDate], [getFullYear]) are local
    ones as well, so that the time zone only matters within a day of the
    two ends of the time range; the model places the clock in UTC. *)

Module JSDate.

Definition DayFromYear (y : Z) : Z :=
  365 * (y - 1970) + (y - 1969) / 4 - (y - 1901) / 100 + (y - 1601) / 400.

Definition InLeapYear (y : Z) : bool :=
  (y mod 4 =? 0) && (negb (y mod 100 =? 0) || (y mod 400 =? 0)).

Definition DaysInYear (y : Z) : Z := if InLeapYear y then 366 else 365.

(** Day within the year on which month [m] (0 = January) starts. *)
Definition monthStart (leap : bool) (m : Z) : Z :=
  let l := if leap then 1 else 0 in
  match m with
  | 0 => 0
  | 1 => 31
  | 2 => 59 + l
  | 3 => 90 + l
  | 4 => 120 + l
  | 5 => 151 + l
  | 6 => 181 + l
  | 7 => 212 + l
  | 8 => 243 + l
  | 9 => 273 + l
  | 10 => 304 + l
  | _ => 334 + l
  end.

Definition DaysInMonth (y m : Z) : Z :=
  if m =? 11 then 31
  else monthStart (InLeapYear y) (m + 1) - monthStart (InLeapYear y) m.

(** [MakeDay(year, month, date)]: the day number of day [date] of the
    month, days past the end of the month running on into the next. *)
Definition MakeDay (year month date : Z) : Z :=
  let ym := year + month / 12 in
  let mn := month mod 12 in
  DayFromYear ym + monthStart (InLeapYear ym) mn + date - 1.

(** [YearFromTime]: the largest year [y] with [DayFromYear y <= d],
    found from the mean year length of 146097 / 400 days, which is off
    by at most one year. *)
Definition YearFromDay (d : Z) : Z :=
  let e := 1970 + (400 * d) / 146097 in
  if d <? DayFromYear e then e - 1
  else if DayFromYear (e + 1) <=? d then e + 1
  else e.

Definition DayWithinYear (d : Z) : Z := d - DayFromYear (YearFromDay d).

Definition MonthFromDay (d : Z) : Z :=
  let k := DayWithinYear d in
  let l := if InLeapYear (YearFromDay d) then 1 else 0 in
  if k <? 31 then 0
  else if k <? 59 + l then 1
  else if k <? 90 + l then 2
  else if k <? 120 + l then 3
  else if k <? 151 + l then 4
  else if k <? 181 + l then 5
  else if k <? 212 + l then 6
  else if k <? 243 + l then 7
  else if k <? 273 + l then 8
  else if k <? 304 + l then 9
  else if k <? 334 + l then 10
  else 11.

Definition DateFromDay (d : Z) : Z :=
  DayWithinYear d - monthStart (InLeapYear (YearFromDay d)) (MonthFromDay d) + 1.

Definition WeekDay (d : Z) : Z := (d + 4) mod 7.

(** The time range: 100,000,000 days on either side of the epoch
    ([TimeClip]). *)
Definition maxDay : Z := 100000000.

Definition Date := option Z.

(** [new Date(year, monthIndex, day)], the arguments being numbers or
    [NaN] ([None]).  A year from 0 to 99 stands for 1900 to 1999. *)
Definition newDate (year : option Z) (monthIndex : Z) (day : option Z) : Date :=
  match year, day with
  | Some y, Some dt =>
      let yr := if (0 <=? y) && (y <=? 99) then 1900 + y else y in
      let dayNo := MakeDay yr monthIndex dt in
      if Z.abs dayNo <=? maxDay then Some dayNo else None
  | _, _ => None
  end.

(** [getDay()], [getDate()], [getFullYear()]: [NaN] on the invalid date. *)
Definition getDay (d : Date) : option Z := option_map WeekDay d.
Definition getDate (d : Date) : option Z := option_map DateFromDay d.
Definition getFullYear (d : Date) : option Z := option_map YearFromDay d.

End JSDate.

Import JS.

(** A number inside a template literal. *)
Definition showNumber (n : option Z) : jsstring :=
  match n with
  | Some z => numberToString z
  | None => lit "NaN"
  end.

(** ** [formatDate] *)

Definition months : list jsstring :=
  map lit ["Jan"; "Feb"; "Mar"; "Apr"; "May"; "Jun";
           "Jul"; "Aug"; "Sep"; "Oct"; "Nov"; "Dec"]%string.

Definition days : list jsstring :=
  map lit ["Sun"; "Mon"; "Tue"; "Wed"; "Thu"; "Fri"; "Sat"]%string.

(** [arr.findIndex(p)]; [None] is the index -1. *)
Fixpoint findIndex {A : Type} (p : A -> bool) (arr : list A) : option nat :=
  match arr with
  | [] => None
  | a :: arr' => if p a then Some 0%nat else option_map S (findIndex p arr')
  end.

(** [months.findIndex((m) => m.toLowerCase() === month.toLowerCase().slice(0, 3))] *)
Definition findMonthIndex (month : jsstring) : option nat :=
  findIndex
    (fun m => jsstring_eqb (toLowerCase m) (slice03 (toLowerCase month)))
    months.

(** [days[dateObj.getDay()]] inside a template literal: indexing by [NaN]
    gives [undefined]. *)
Definition dayName (d : JSDate.Date) : jsstring :=
  match JSDate.getDay d with
  | Some w => nth (Z.to_nat w) days (lit "undefined")
  | None => lit "undefined"
  end.

(** The part of [parseSingleDate] after the destructuring of [parts]:
    [month], [day] and [year] are the destructured variables, [None]
    where the array was too short. *)
Definition formatParts (currentYear : Z) (date : jsstring)
    (month day year : option jsstring) : result jsstring :=
  (* if (!year) year = new Date().getFullYear().toString() *)
  let year :=
    match year with
    | Some y => if truthy y then y else numberToString currentYear
    | None => numberToString currentYear
    end in
  let day := option_map stripNonDigits day in
  let year := stripNonDigits year in
  match month with
  | None => Throw TypeError (* month.toLowerCase() on undefined *)
  | Some month =>
      match findMonthIndex month with
      | None => Ok date
      | Some monthIndex =>
          let dateObj :=
            JSDate.newDate (parseInt year) (Z.of_nat monthIndex)
              (match day with Some d => parseInt d | None => None end) in
          Ok (dayName dateObj ++ lit ", " ++
              nth monthIndex months [] ++ lit " " ++
              showNumber (JSDate.getDate dateObj) ++ lit ", " ++
              showNumber (JSDate.getFullYear dateObj))
      end
  end.

(** [date.split(/[,\s]+/).filter(Boolean)] *)
Definition dateTokens (date : jsstring) : list jsstring :=
  filter truthy (splitRuns false date).

Definition parseSingleDate (currentYear : Z) (date : jsstring) : result jsstring :=
  let parts := dateTokens date in
  match parts with
  | [] =>
      (* days.includes(undefined) is false, parts[0].slice throws *)
      Throw TypeError
  | p0 :: _ =>
      if includes days p0 then
        (* [dayOfWeek, month, day, year] = parts *)
        formatParts currentYear date
          (nth_error parts 1) (nth_error parts 2) (nth_error parts 3)
      else if includes months (slice03 p0) then
        (* [month, day, year] = parts *)
        formatParts currentYear date
          (nth_error parts 0) (nth_error parts 1) (nth_error parts 2)
      else Ok date
  end.

(** [currentYear] is [new Date().getFullYear()]. *)
Definition formatDate (currentYear : Z) (dateString : jsstring) : result jsstring :=
  if negb (truthy (trim dateString)) || jsstring_eqb dateString (lit "mockValue")
  then Ok dateString
  else if negb (truthy (trim dateString)) then Ok dateString
  else
    dateParts <- mapM (parseSingleDate currentYear)
                   (map trim (split "-"%char dateString)) ;;
    if (List.length dateParts =? 2)%nat then Ok (join (lit " - ") dateParts)
    else match dateParts with
         | first :: _ => Ok first
         | [] => Ok [] (* not reached: split gives at least one piece *)
         end.

(** ** [removeSearchParams] and the [URL] class (WHATWG URL standard)

    The URL record, the [search] setter and the serialiser follow the
    standard; the parser, which the platform supplies, is a parameter. *)

Module URL.

Inductive urlPath : Type :=
| OpaquePath (p : jsstring)
| PathList (segments : list jsstring).

Record record : Type := mk {
  scheme : jsstring;
  username : jsstring;
  password : jsstring;
  host : option jsstring;
  port : option Z;
  path : urlPath;
  query : option jsstring;
  fragment : option jsstring
}.

Definition isSpace (c : ascii) : bool := Ascii.eqb c " "%char.

(** "Potentially strip trailing spaces from an opaque path". *)
Definition stripTrailingSpaces (u : record) : record :=
  match path u, fragment u, query u with
  | OpaquePath p, None, None =>
      mk (scheme u) (username u) (password u) (host u) (port u)
         (OpaquePath (rev (dropWhile isSpace (rev p)))) None None
  | _, _, _ => u
  end.

(** Setting [urlObject.search] to the empty string: the query becomes
    null. *)
Definition clearSearch (u : record) : record :=
  stripTrailingSpaces
    (mk (scheme u) (username u) (password u) (host u) (port u)
        (path u) None (fragment u)).

Definition serializePath (p : urlPath) : jsstring :=
  match p with
  | OpaquePath s => s
  | PathList segments => List.concat (map (fun seg => lit "/" ++ seg) segments)
  end.

(** The URL serialiser up to the path. *)
Definition serializeToPath (u : record) : jsstring :=
  scheme u ++ lit ":" ++
  match host u with
  | Some h =>
      lit "//" ++
      (if truthy (username u) || truthy (password u)
       then username u ++
            (if truthy (password u) then lit ":" ++ password u else []) ++
            lit "@"
       else []) ++
      h ++
      match port u with
      | Some n => lit ":" ++ numberToString n
      | None => []
      end
  | None =>
      match path u with
      | PathList ([] :: _ :: _) => lit "/."
      | _ => []
      end
  end ++
  serializePath (path u).

(** The URL serialiser: [urlObject.toString()], which is [href]. *)
Definition toString (u : record) : jsstring :=
  serializeToPath u ++
  match query u with Some q => lit "?" ++ q | None => [] end ++
  match fragment u with Some f => lit "#" ++ f | None => [] end.

(** The platform's URL parser without a base URL: [None] is the failure
    on which [new URL(url)] throws a [TypeError]. *)
Definition parser : Type := jsstring -> option record.

Definition construct (parse : parser) (url : jsstring) : result record :=
  match parse url with
  | Some u => Ok u
  | None => Throw TypeError
  end.

End URL.

Definition removeSearchParams (parse : URL.parser) (url : jsstring)
    : result jsstring :=
  tryCatch
    (urlObject <- URL.construct parse url ;;
     let urlObject := URL.clearSearch urlObject in
     Ok (URL.toString urlObject))
    (fun _ => Ok url).

(** ** Selector sets and [getSelectorsFromLLM] *)

(** The property names of [WebsiteConfig["defaultSelectors"]]. *)
Inductive SelectorKey : Type :=
| Kvenue | Kprice | Kevent | Kdate | KticketLink | Ksubtitle | Kpretitle.

Definition SelectorKey_eq_dec (a b : SelectorKey) : {a = b} + {a <> b}.
Proof. decide equality. Defined.

(** A selector object, given as [Object.entries] lists it: its
    properties in insertion order, each property name once.  The value of
    an optional property may be [undefined]. *)
Definition SelectorSet : Type := list (SelectorKey * option jsstring).

(** What the structured-completion service resolves with. *)
Record GenerateObjectResult : Type := {
  object_selectors : SelectorSet
}.

Definition newline : ascii := ascii_of_N 10.

Definition selectorPrompt (html : jsstring) : jsstring :=
  lit "Given the HTML snippet, provide CSS selectors for venue, price, event, date, ticketLink, subtitle, and pretitle elements for each event listed:"
  ++ [newline; newline] ++ html.

(** [generateObject] is the service call with the model and the schema
    fixed: it resolves with a schema-valid object or rejects. *)
Definition getSelectorsFromLLM
    (generateObject : jsstring -> result GenerateObjectResult)
    (html : jsstring) (defaultSelectors : SelectorSet) : result SelectorSet :=
  let prompt := selectorPrompt html in
  tryCatch
    (r <- generateObject prompt ;; Ok (object_selectors r))
    (fun _ => Ok defaultSelectors).

(** ** [scrapeEvents] *)

(** An element of the page as [$eval] callbacks see it. *)
Record Node : Type := {
  textContent : option jsstring;
  href : jsstring
}.

(** An element handle: the first descendant a selector matches, if any. *)
Definition ElementHandle : Type := jsstring -> option Node.

(** [page.$$(selector)] *)
Definition Page : Type := jsstring -> list ElementHandle.

(** [element.$eval(selector, f)] rejects when the selector matches no
    element. *)
Definition eval' {A : Type} (element : ElementHandle) (selector : jsstring)
    (f : Node -> A) : result A :=
  match element selector with
  | Some el => Ok (f el)
  | None => Throw (Rejected (lit "failed to find element matching selector"))
  end.

(** The callback that reads the text: [el.textContent?.trim()], and the
    empty string when that is missing or empty. *)
Definition trimmedText (el : Node) : jsstring :=
  match textContent el with
  | Some t => if truthy (trim t) then trim t else []
  | None => []
  end.

(** [text.match(/\$\d+(\.\d{2})?/)] tried at the start of [s]: a dollar
    sign, the longest run of digits (at least one), and then a dot with
    two digits when they follow. *)
Definition matchPriceHere (s : jsstring) : option jsstring :=
  match s with
  | c :: rest =>
      if Ascii.eqb c "$"%char then
        match takeWhile isDigit rest with
        | [] => None
        | ds =>
            Some (c :: ds ++
                  match dropWhile isDigit rest with
                  | dot :: a :: b :: _ =>
                      if Ascii.eqb dot "."%char && isDigit a && isDigit b
                      then [dot; a; b] else []
                  | _ => []
                  end)
        end
      else None
  | [] => None
  end.

(** [text.match(/\$\d+(\.\d{2})?/)?.[0]]: the match at the leftmost
    position that has one. *)
Fixpoint matchPrice (s : jsstring) : option jsstring :=
  match matchPriceHere s with
  | Some m => Some m
  | None =>
      match s with
      | [] => None
      | _ :: s' => matchPrice s'
      end
  end.

(** The value stored under [price]. *)
Definition priceOf (text : jsstring) : jsstring :=
  if contains (lit "sold out") (toLowerCase text) then lit "SOLD OUT"
  else match matchPrice text with
       | Some m => if truthy m then m else trim text
       | None => trim text
       end.

(** [Partial<Event>]: a property not yet assigned is [undefined]. *)
Record Event : Type := mkEvent {
  website : option jsstring;
  venue : option jsstring;
  price : option jsstring;
  event : option jsstring;
  date : option jsstring;
  ticketLink : option jsstring
}.

(** The variables of one iteration of the [map] callback. *)
Record BlockState : Type := mkBlock {
  eventData : Event;
  presenter : jsstring;
  mainArtist : jsstring;
  supportingActs : jsstring
}.

Definition setField (key : SelectorKey) (v : jsstring) (e : Event) : Event :=
  match key with
  | Kvenue => mkEvent (website e) (Some v) (price e) (event e) (date e) (ticketLink e)
  | Kprice => mkEvent (website e) (venue e) (Some v) (event e) (date e) (ticketLink e)
  | Kevent => mkEvent (website e) (venue e) (price e) (Some v) (date e) (ticketLink e)
  | Kdate => mkEvent (website e) (venue e) (price e) (event e) (Some v) (ticketLink e)
  | KticketLink => mkEvent (website e) (venue e) (price e) (event e) (date e) (Some v)
  | Ksubtitle | Kpretitle => e
  end.

Definition withData (f : Event -> Event) (st : BlockState) : BlockState :=
  mkBlock (f (eventData st)) (presenter st) (mainArtist st) (supportingActs st).

(** What the scraper takes from its surroundings. *)
Record Host : Type := {
  currentYear : Z;
  parseURL : URL.parser;
  toUpperCase : jsstring -> jsstring
}.

Section ScrapeBlock.

Variable host : Host.
Variable element : ElementHandle.
Variable venueName : jsstring.

(** The branches of the loop body once [text] has been read.  A venue
    with a text falls through to the last branch of the source, which
    writes the text under the key; the keys of a selector object leave
    that branch no other case. *)
Definition storeField (key : SelectorKey) (selector text : jsstring)
    (st : BlockState) : result BlockState :=
  match key with
  | Kprice => Ok (withData (setField Kprice (priceOf text)) st)
  | KticketLink =>
      link <- tryCatch (eval' element selector href) (fun _ => Ok []) ;;
      link <- removeSearchParams (parseURL host) link ;;
      Ok (withData (setField KticketLink link) st)
  | Kdate =>
      d <- formatDate (currentYear host) text ;;
      Ok (withData (setField Kdate d) st)
  | Kevent => Ok (mkBlock (eventData st) (presenter st) text (supportingActs st))
  | Kvenue =>
      if negb (truthy text) then Ok (withData (setField Kvenue venueName) st)
      else Ok (withData (setField Kvenue text) st)
  | Kpretitle => Ok (mkBlock (eventData st) text (mainArtist st) (supportingActs st))
  | Ksubtitle => Ok (mkBlock (eventData st) (presenter st) (mainArtist st) text)
  end.

(** One iteration of [for (const [key, selector] of Object.entries(selectors))]. *)
Definition fieldStep (st : BlockState) (entry : SelectorKey * option jsstring)
    : result BlockState :=
  let (key, selector) := entry in
  match selector with
  | None => Ok st (* continue *)
  | Some selector =>
      if negb (truthy selector) then Ok st (* continue *)
      else
        text <- tryCatch (eval' element selector trimmedText) (fun _ => Ok []) ;;
        storeField key selector text st
  end.

Fixpoint forEntries (entries : SelectorSet) (st : BlockState) : result BlockState :=
  match entries with
  | [] => Ok st
  | entry :: rest => st' <- fieldStep st entry ;; forEntries rest st'
  end.

(** The segments pushed on [eventTitle]. *)
Definition eventTitle (presenter mainArtist supportingActs : jsstring)
    : list jsstring :=
  (if truthy presenter then [toUpperCase host presenter] else []) ++
  (if truthy mainArtist then [mainArtist] else []) ++
  (if truthy supportingActs then [supportingActs] else []).

(** The callback of [eventElements.map]. *)
Definition scrapeBlock (selectors : SelectorSet) (websiteKey : jsstring)
    : result Event :=
  let start :=
    mkBlock (mkEvent (Some websiteKey) None None None None None) [] [] [] in
  st <- forEntries selectors start ;;
  Ok (setField Kevent
        (join (lit " ") (eventTitle (presenter st) (mainArtist st) (supportingActs st)))
        (eventData st)).

End ScrapeBlock.

(** [Promise.all] over the blocks: the records in block order, or the
    rejection of a block. *)
Definition scrapeEvents (host : Host) (page : Page) (selectors : SelectorSet)
    (eventListSelector websiteKey venueName : jsstring) : result (list Event) :=
  let eventElements := page eventListSelector in
  mapM (fun element => scrapeBlock host element venueName selectors websiteKey)
       eventElements.

(** ** [saveToJson] *)

Definition truthyField (v : option jsstring) : bool :=
  match v with
  | Some s => truthy s
  | None => false
  end.

(** The predicate of [data.filter]. *)
Definition isComplete (e : Event) : bool :=
  truthyField (website e) && truthyField (venue e) && truthyField (price e) &&
  truthyField (event e) && truthyField (date e) && truthyField (ticketLink e).

(** What [saveToJson] does to the outside: one file written, whose JSON
    text is kept as the array it serialises, and two lines logged. *)
Inductive effect : Type :=
| WriteFile (filename : jsstring) (json : list Event)
| ConsoleLog (line : jsstring).

Definition saveToJson (data : list Event) (filename : jsstring) : list effect :=
  let cleanedData := filter isComplete data in
  [ WriteFile filename cleanedData;
    ConsoleLog (lit "Data saved to " ++ filename);
    ConsoleLog (lit "Total raw events: " ++
                numberToString (Z.of_nat (List.length data)) ++
                lit ", Cleaned events: " ++
                numberToString (Z.of_nat (List.length cleanedData))) ].

(** The array [saveToJson] writes. *)
Definition writtenArray (effects : list effect) : option (list Event) :=
  match effects with
  | WriteFile _ json :: _ => Some json
  | _ => None
  end.

(** ** Inputs and instances used to state and to exercise the properties *)

(** A valid single date: a string without a hyphen whose tokens, the
    surrounding white space and an optional leading weekday abbreviation
    apart, are a month name that starts with one of the twelve
    abbreviations, a day and possibly a year (the current year
    otherwise, and a year from 0 to 99 counted from 1900), such that the
    day exists in that month of that year and the year is at most
    275759, the last year that lies in the time range as a whole.
    [readSingleDate] gives the month index, the day and the year. *)
Definition fullYear (y : Z) : Z :=
  if (0 <=? y) && (y <=? 99) then 1900 + y else y.

Definition readSingleDate (currentYear : Z) (D : jsstring) : option (nat * Z * Z) :=
  let parts := dateTokens (trim D) in
  let fields :=
    match parts with
    | p0 :: rest =>
        if includes days p0 then Some rest
        else if includes months (slice03 p0) then Some parts
        else None
    | [] => None
    end in
  match fields with
  | Some (month :: day :: more) =>
      match findMonthIndex month,
            parseInt (stripNonDigits day),
            parseInt (stripNonDigits
                        (match more with
                         | year :: _ => year
                         | [] => numberToString currentYear
                         end)) with
      | Some mi, Some d, Some y => Some (mi, d, fullYear y)
      | _, _, _ => None
      end
  | _ => None
  end.

Definition isHyphen (c : ascii) : bool := Ascii.eqb c "-"%char.

Definition validSingleDate (currentYear : Z) (D : jsstring) : bool :=
  negb (existsb isHyphen D) &&
  match readSingleDate currentYear D with
  | Some (mi, d, y) =>
      (1 <=? d) && (d <=? JSDate.DaysInMonth y (Z.of_nat mi)) && (y <=? 275759)
  | None => false
  end.

(** A date segment that [parseSingleDate] turns down: it has a first
    token, and either that token is neither a weekday abbreviation nor
    the start of a month name, or it is a weekday abbreviation followed
    by a token that resolves to no month. *)
Definition unrecognized (segment : jsstring) : bool :=
  match dateTokens segment with
  | [] => false
  | p0 :: rest =>
      if includes days p0 then
        match rest with
        | month :: _ =>
            match findMonthIndex month with None => true | Some _ => false end
        | [] => false
        end
      else negb (includes months (slice03 p0))
  end.

(** A date segment with a first token that is not a weekday
    abbreviation standing alone. *)
Definition hasDateTokens (segment : jsstring) : bool :=
  match dateTokens segment with
  | [] => false
  | [p0] => negb (includes days p0)
  | _ :: _ :: _ => true
  end.

(** Day [dt] of month [m] (0 = January) exists in year [y]. *)
Definition validDay (y m dt : Z) : Prop :=
  0 <= m <= 11 /\ 1 <= dt <= JSDate.DaysInMonth y m.

(** A character that [/[,\s]+/] does not match. *)
Definition isWordChar (c : ascii) : bool := negb (isDateSep c).

(** The canonical form ["Www, Mon D, YYYY"] of a calendar date. *)
Definition canonicalDate (mi : nat) (d y : Z) : jsstring :=
  nth (Z.to_nat (JSDate.WeekDay (JSDate.MakeDay y (Z.of_nat mi) d))) days [] ++
  lit ", " ++ nth mi months [] ++ lit " " ++
  numberToString d ++ lit ", " ++ numberToString y.

(** A price token: a dollar sign, one or more digits and possibly a dot
    with two digits. *)
Definition isPriceToken (m : jsstring) : Prop :=
  exists ds frac,
    m = "$"%char :: ds ++ frac /\
    ds <> [] /\ forallb isDigit ds = true /\
    (frac = [] \/
     exists a b, frac = ["."%char; a; b] /\ isDigit a = true /\ isDigit b = true).

(** [m] occurs in [s] at position [i]. *)
Definition occursAt (m s : jsstring) (i : nat) : Prop :=
  exists pre post, s = pre ++ m ++ post /\ List.length pre = i.

(** [toUpperCase] on the letters a-z, for the examples. *)
Definition upperChar (c : ascii) : ascii :=
  let n := code c in
  if ((97 <=? n) && (n <=? 122))%N then ascii_of_N (n - 32) else c.

Definition asciiUpperCase (s : jsstring) : jsstring := map upperChar s.

(** A URL parser for the plain URLs [http(s)://host/path?query] (a
    lower-case host name; no credentials, port, escapes, dot segments or
    fragment), which the standard parser takes apart without rewriting
    anything.  It stands for the platform parser in the examples. *)
Definition isHostChar (c : ascii) : bool :=
  let n := code c in
  ((97 <=? n) && (n <=? 122) || (48 <=? n) && (n <=? 57) || (n =? 45) || (n =? 46))%N.

Definition isPlainChar (c : ascii) : bool :=
  let n := code c in
  ((97 <=? n) && (n <=? 122) || (65 <=? n) && (n <=? 90) ||
   (48 <=? n) && (n <=? 57) || (n =? 45) || (n =? 95) || (n =? 61) || (n =? 38))%N.

Definition isPathChar (c : ascii) : bool :=
  isPlainChar c || Ascii.eqb c "/"%char.

Definition stripPrefix (p s : jsstring) : option jsstring :=
  if startsWith p s then Some (skipn (List.length p) s) else None.

Definition plainURL (url : jsstring) : option URL.record :=
  let afterScheme :=
    match stripPrefix (lit "https://") url with
    | Some r => Some (lit "https", r)
    | None =>
        match stripPrefix (lit "http://") url with
        | Some r => Some (lit "http", r)
        | None => None
        end
    end in
  match afterScheme with
  | None => None
  | Some (sch, rest) =>
      let h := takeWhile isHostChar rest in
      let rest1 := dropWhile isHostChar rest in
      let p := takeWhile isPathChar rest1 in
      let rest2 := dropWhile isPathChar rest1 in
      let segments :=
        match p with
        | [] => Some [[]]
        | c :: p' => if Ascii.eqb c "/"%char then Some (split "/"%char p') else None
        end in
      match h, segments, rest2 with
      | _ :: _, Some segs, [] =>
          Some (URL.mk sch [] [] (Some h) None (URL.PathList segs) None None)
      | _ :: _, Some segs, q :: query =>
          if Ascii.eqb q "?"%char && forallb isPlainChar query
          then Some (URL.mk sch [] [] (Some h) None (URL.PathList segs)
                       (Some query) None)
          else None
      | _, _, _ => None
      end
  end.

(** The record the standard parser builds for
    ["https://example.com?param=value"]: a special scheme with an empty
    path has the single empty segment. *)
Definition exampleComURL : URL.record :=
  URL.mk (lit "https") [] [] (Some (lit "example.com")) None
    (URL.PathList [[]]) (Some (lit "param=value")) None.

Definition exampleHost (year : Z) : Host :=
  {| currentYear := year; parseURL := plainURL; toUpperCase := asciiUpperCase |}.

(** The default selectors of the State Room sites and of SNS Presents
    ([websiteConfigs]). *)
Definition stateroomSelectors : SelectorSet :=
  [ (Kvenue, Some (lit ".up-pretitle"));
    (Kprice, Some (lit ".up-link a"));
    (Kevent, Some (lit ".up-title a"));
    (Kdate, Some (lit ".up-date"));
    (KticketLink, Some (lit ".up-link a"));
    (Ksubtitle, Some (lit ".up-subtitle"));
    (Kpretitle, Some (lit ".up-pretitle")) ].

Definition snsSelectors : SelectorSet :=
  [ (Kvenue, Some (lit ".tix__venue"));
    (Kprice, Some (lit ".tix__widget--footer"));
    (Kevent, Some (lit ".tix__title--headliner"));
    (Kdate, Some (lit ".tix__date"));
    (KticketLink, Some (lit ".tix__widget--footer a")) ].

(** A block of a State Room page. *)
Definition exampleBlock : ElementHandle :=
  fun selector =>
    if jsstring_eqb selector (lit ".up-pretitle") then
      Some {| textContent := Some (lit " kuer presents "); href := [] |}
    else if jsstring_eqb selector (lit ".up-title a") then
      Some {| textContent := Some (lit "Josh Ritter"); href := [] |}
    else if jsstring_eqb selector (lit ".up-date") then
      Some {| textContent := Some (lit "Jul 4, 2024"); href := [] |}
    else if jsstring_eqb selector (lit ".up-link a") then
      Some {| textContent := Some (lit "Tickets $35.50");
              href := lit "https://tickets.example.com/e/42?ref=list" |}
    else None.

(** [selectors[key]] when it is a non-empty string, that is, when the
    loop of [scrapeEvents] does not skip the property. *)
Definition key_eqb (a b : SelectorKey) : bool :=
  if SelectorKey_eq_dec a b then true else false.

Fixpoint selectorFor (key : SelectorKey) (selectors : SelectorSet) : option jsstring :=
  match selectors with
  | [] => None
  | (k, v) :: rest =>
      if key_eqb k key then
        match v with
        | Some selector => if truthy selector then Some selector else None
        | None => None
        end
      else selectorFor key rest
  end.

(** The raw text and the raw link of a field: what the element under the
    selector gives, and the empty string when there is none. *)
Definition textAt (element : ElementHandle) (selector : jsstring) : jsstring :=
  match element selector with
  | Some el => trimmedText el
  | None => []
  end.

Definition hrefAt (element : ElementHandle) (selector : jsstring) : jsstring :=
  match element selector with
  | Some el => href el
  | None => []
  end.

(** The URL without its query, or the input when it is no URL. *)
Definition canonicalURL (parse : URL.parser) (url : jsstring) : jsstring :=
  match parse url with
  | Some u => URL.toString (URL.clearSearch u)
  | None => url
  end.

(** The title spelt out: the non-empty ones among the upper-cased
    presenter, the main artist and the supporting acts, with one space
    between neighbours. *)
Definition titleOf (upper : jsstring -> jsstring)
    (presenter mainArtist supportingActs : jsstring) : jsstring :=
  match truthy presenter, truthy mainArtist, truthy supportingActs with
  | true, true, true =>
      upper presenter ++ lit " " ++ mainArtist ++ lit " " ++ supportingActs
  | true, true, false => upper presenter ++ lit " " ++ mainArtist
  | true, false, true => upper presenter ++ lit " " ++ supportingActs
  | true, false, false => upper presenter
  | false, true, true => mainArtist ++ lit " " ++ supportingActs
  | false, true, false => mainArtist
  | false, false, true => supportingActs
  | false, false, false => []
  end.

(** [text] contains ["sold out"] in some mix of upper and lower case. *)
Definition containsSoldOut (text : jsstring) : Prop :=
  exists pre mid post,
    text = pre ++ mid ++ post /\ toLowerCase mid = lit "sold out".

(** [m] is the first price token of [text]: a price token that occurs
    in [text] such that no price token occurs further left and none that
    occurs at the same place is longer. *)
Definition firstPriceToken (text m : jsstring) : Prop :=
  exists i,
    occursAt m text i /\ isPriceToken m /\
    (forall m' j, isPriceToken m' -> occursAt m' text j -> (i <= j)%nat) /\
    (forall m', isPriceToken m' -> occursAt m' text i ->
                (List.length m' <= List.length m)%nat).

Definition noPriceToken (text : jsstring) : Prop :=
  forall m i, isPriceToken m -> ~ occursAt m text i.

(** What a block stores under the fields it writes directly, from the
    selector of each field: nothing when the selector is skipped. *)
Definition orElse {A : Type} (a b : option A) : option A :=
  match a with
  | Some x => Some x
  | None => b
  end.

Definition textFor (element : ElementHandle) (selectors : SelectorSet)
    (key : SelectorKey) : jsstring :=
  match selectorFor key selectors with
  | Some selector => textAt element selector
  | None => []
  end.

Definition venueValue (element : ElementHandle) (venueName : jsstring)
    (selectors : SelectorSet) : option jsstring :=
  match selectorFor Kvenue selectors with
  | Some selector =>
      Some (if truthy (textAt element selector)
            then textAt element selector else venueName)
  | None => None
  end.

Definition priceValue (element : ElementHandle) (selectors : SelectorSet)
    : option jsstring :=
  option_map (fun selector => priceOf (textAt element selector))
    (selectorFor Kprice selectors).

Definition linkValue (host : Host) (element : ElementHandle)
    (selectors : SelectorSet) : option jsstring :=
  option_map
    (fun selector => canonicalURL (parseURL host) (hrefAt element selector))
    (selectorFor KticketLink selectors).

Definition dateValue (host : Host) (element : ElementHandle)
    (selectors : SelectorSet) : result (option jsstring) :=
  match selectorFor Kdate selectors with
  | Some selector =>
      d <- formatDate (currentYear host) (textAt element selector) ;;
      Ok (Some d)
  | None => Ok None
  end.

Section BlockStates.

Variable host : Host.
Variable element : ElementHandle.
Variable venueName : jsstring.

(** The state after the iteration for [key], the date apart. *)
Definition stored (key : SelectorKey) (selector : jsstring) (st : BlockState)
    : BlockState :=
  let text := textAt element selector in
  match key with
  | Kprice => withData (setField Kprice (priceOf text)) st
  | KticketLink =>
      withData (setField KticketLink
                  (canonicalURL (parseURL host) (hrefAt element selector))) st
  | Kdate => st
  | Kevent => mkBlock (eventData st) (presenter st) text (supportingActs st)
  | Kvenue =>
      withData (setField Kvenue (if truthy text then text else venueName)) st
  | Kpretitle => mkBlock (eventData st) text (mainArtist st) (supportingActs st)
  | Ksubtitle => mkBlock (eventData st) (presenter st) (mainArtist st) text
  end.

(** The date text of every date selector that matches goes through
    [formatDate] without an exception. *)
Definition datesFormat (selectors : SelectorSet) : Prop :=
  forall selector,
    In (Kdate, Some selector) selectors ->
    element selector = None \/
    exists d, formatDate (currentYear host) (textAt element selector) = Ok d.

(** The state the loop ends in, from the state it starts in. *)
Definition merged (selectors : SelectorSet) (d : option jsstring)
    (st : BlockState) : BlockState :=
  mkBlock
    (mkEvent (website (eventData st))
       (orElse (venueValue element venueName selectors) (venue (eventData st)))
       (orElse (priceValue element selectors) (price (eventData st)))
       (event (eventData st))
       (orElse d (date (eventData st)))
       (orElse (linkValue host element selectors) (ticketLink (eventData st))))
    (match selectorFor Kpretitle selectors with
     | Some selector => textAt element selector
     | None => presenter st
     end)
    (match selectorFor Kevent selectors with
     | Some selector => textAt element selector
     | None => mainArtist st
     end)
    (match selectorFor Ksubtitle selectors with
     | Some selector => textAt element selector
     | None => supportingActs st
     end).

End BlockStates.

(** A record is complete when each of its six fields holds a non-empty
    string. *)
Definition complete (e : Event) : Prop :=
  exists w v p t d l,
    e = mkEvent (Some w) (Some v) (Some p) (Some t) (Some d) (Some l) /\
    w <> [] /\ v <> [] /\ p <> [] /\ t <> [] /\ d <> [] /\ l <> [].

(** [cleaned data out]: [out] is [data] with exactly the incomplete
    records taken out, the others staying in place. *)
Inductive cleaned : list Event -> list Event -> Prop :=
| cleaned_nil : cleaned [] []
| cleaned_keep e data out :
    complete e -> cleaned data out -> cleaned (e :: data) (e :: out)
| cleaned_drop e data out :
    ~ complete e -> cleaned data out -> cleaned (e :: data) out.

(** ** Site configurations, [scrapeWebsite] and [main] *)

Module WebsiteConfig.

Record t : Type := mk {
  url : jsstring;
  venue : jsstring;
  upcomingEventsSelector : option jsstring;
  eventListSelector : jsstring;
  eventSectionSelector : jsstring;
  defaultSelectors : SelectorSet
}.

End WebsiteConfig.

(** A State Room site: they differ in their address and venue only. *)
Definition stateroomSite (url venue : string) : WebsiteConfig.t :=
  WebsiteConfig.mk (lit url) (lit venue) None
    (lit ".d-flex.align-items-center.row")
    (lit ".mod-dpcalendar-upcoming-custom__events")
    stateroomSelectors.

(** [websiteConfigs], as [Object.entries] lists it. *)
Definition websiteConfigs : list (jsstring * WebsiteConfig.t) :=
  [ (lit "stateroompresents",
     stateroomSite "https://thestateroompresents.com/stateroompresents"
       "The State Room Presents");
    (lit "deervalley",
     stateroomSite "https://thestateroompresents.com/deer-valley"
       "Deer Valley Concert Series");
    (lit "stateroom",
     stateroomSite "https://thestateroompresents.com/the-state-room"
       "The State Room");
    (lit "commonwealth",
     stateroomSite "https://thestateroompresents.com/the-commonwealth-room"
       "Commonwealth Room");
    (lit "eccles",
     stateroomSite "https://thestateroompresents.com/eccles-theater"
       "Eccles Theater");
    (lit "snspresents",
     WebsiteConfig.mk (lit "https://snspresents.com/") (lit "SNS Presents")
       (Some (lit "text=upcoming events"))
       (lit "div.tix__widget") (lit "div.sqs-block-content") snsSelectors) ].

(** What the program does to the outside, in the order it does it: the
    calls on the browser driver, and the lines and the file it puts out.
    [WaitForSelector] is the wait for the visible state with the timeout
    of 10000 ms. *)
Inductive action : Type :=
| Launch
| NewPage
| Goto (url : jsstring)
| WaitForSelector (selector : jsstring)
| InnerHTML (selector : jsstring)
| Close
| Output (e : effect)
| ConsoleError (line : jsstring) (e : error).

(** A computation that acts on the outside: the actions done, and the
    value or the exception it ends with. *)
Definition io (A : Type) : Type := list action * result A.

Definition ioRet {A : Type} (a : A) : io A := ([], Ok a).

Definition ioBind {A B : Type} (m : io A) (k : A -> io B) : io B :=
  match m with
  | (done, Ok a) => let (more, r) := k a in (done ++ more, r)
  | (done, Throw e) => (done, Throw e)
  end.

Notation "x <~ m ;; k" := (ioBind m (fun x => k))
  (at level 61, m at next level, right associativity).

(** One call on the outside with its outcome. *)
Definition perform {A : Type} (a : action) (outcome : result A) : io A :=
  ([a], outcome).

(** [try { body } finally { cleanup }]: the cleanup runs whatever the
    body ends with, and an exception of the cleanup takes the place of
    the outcome of the body. *)
Definition tryFinally {A : Type} (body : io A) (cleanup : io unit) : io A :=
  let (done, r) := body in
  match cleanup with
  | (more, Ok _) => (done ++ more, r)
  | (more, Throw e) => (done ++ more, Throw e)
  end.

(** The browser one call of [scrapeWebsite] gets: how each call on the
    driver ends, and the page as it stands once it is loaded. *)
Record Session : Type := {
  launch : result unit;
  newPage : result unit;
  goto : jsstring -> result unit;
  waitForSelector : jsstring -> result unit;
  innerHTML : jsstring -> result jsstring;
  content : Page;
  close : result unit
}.

Section ScrapeWebsite.

Variable host : Host.
Variable generateObject : jsstring -> result GenerateObjectResult.

(** The body of the [try] block. *)
Definition scrapePage (session : Session) (config : WebsiteConfig.t)
    (websiteKey : jsstring) : io (list Event) :=
  _ <~ perform (Goto (WebsiteConfig.url config))
         (goto session (WebsiteConfig.url config)) ;;
  _ <~ match WebsiteConfig.upcomingEventsSelector config with
       | Some selector =>
           if truthy selector
           then perform (WaitForSelector selector)
                  (waitForSelector session selector)
           else ioRet tt
       | None => ioRet tt
       end ;;
  _ <~ perform (WaitForSelector (WebsiteConfig.eventListSelector config))
         (waitForSelector session (WebsiteConfig.eventListSelector config)) ;;
  eventsSectionHTML <~
    perform (InnerHTML (WebsiteConfig.eventSectionSelector config))
      (innerHTML session (WebsiteConfig.eventSectionSelector config)) ;;
  selectors <~
    ([], getSelectorsFromLLM generateObject eventsSectionHTML
           (WebsiteConfig.defaultSelectors config)) ;;
  ([], scrapeEvents host (content session) selectors
         (WebsiteConfig.eventListSelector config) websiteKey
         (WebsiteConfig.venue config)).

Definition scrapeWebsite (session : Session) (config : WebsiteConfig.t)
    (websiteKey : jsstring) : io (list Event) :=
  _ <~ perform (Output (ConsoleLog (lit "Scraping " ++ WebsiteConfig.url config)))
         (Ok tt) ;;
  _ <~ perform Launch (launch session) ;;
  _ <~ perform NewPage (newPage session) ;;
  tryFinally (scrapePage session config websiteKey)
    (perform Close (close session)).

(** The loop of [main] over the entries of the table: [sessions key] is
    the browser the launch for the site [key] gets.  The result is what
    was done and the value of [allEvents] after the loop. *)
Fixpoint scrapeSites (sessions : jsstring -> Session)
    (configs : list (jsstring * WebsiteConfig.t)) (allEvents : list Event)
    : list action * list Event :=
  match configs with
  | [] => ([], allEvents)
  | (key, config) :: rest =>
      match scrapeWebsite (sessions key) config key with
      | (done, Ok events) =>
          let (more, all) := scrapeSites sessions rest (allEvents ++ events) in
          (done ++ more, all)
      | (done, Throw e) =>
          let (more, all) := scrapeSites sessions rest allEvents in
          (done ++ ConsoleError (lit "Error scraping " ++ key ++ lit ":") e :: more,
           all)
      end
  end.

(** [nowISO] is [new Date().toISOString()], [dirname] is [__dirname] and
    [pathJoin] is [path.join]. *)
Record Process : Type := {
  nowISO : jsstring;
  dirname : jsstring;
  pathJoin : jsstring -> jsstring -> jsstring
}.

Definition main (process : Process) (sessions : jsstring -> Session)
    (configs : list (jsstring * WebsiteConfig.t)) : list action :=
  let (done, allEvents) := scrapeSites sessions configs [] in
  let date := hd [] (split "T"%char (nowISO process)) in
  let filename :=
    pathJoin process (dirname process)
      (lit "event_data_" ++ date ++ lit ".json") in
  done ++ map Output (saveToJson allEvents filename).

End ScrapeWebsite.

(** The events a site adds to the aggregate: those of its scrape, and
    none when the scrape fails. *)
Definition siteEvents (host : Host)
    (generateObject : jsstring -> result GenerateObjectResult)
    (sessions : jsstring -> Session)
    (site : jsstring * WebsiteConfig.t) : list Event :=
  match snd (scrapeWebsite host generateObject (sessions (fst site))
               (snd site) (fst site)) with
  | Ok events => events
  | Throw _ => []
  end.

(** The files written in a run. *)
Fixpoint filesWritten (actions : list action) : list (jsstring * list Event) :=
  match actions with
  | [] => []
  | Output (WriteFile filename json) :: rest =>
      (filename, json) :: filesWritten rest
  | _ :: rest => filesWritten rest
  end.

Definition isClose (a : action) : bool :=
  match a with Close => true | _ => false end.

Definition isLaunch (a : action) : bool :=
  match a with Launch => true | _ => false end.

(** The date as [formatParts] writes it for day number [n] and the month
    that was read. *)
Definition renderedDate (mi : nat) (n : Z) : jsstring :=
  nth (Z.to_nat (JSDate.WeekDay n)) days [] ++ lit ", " ++
  nth mi months [] ++ lit " " ++
  numberToString (JSDate.DateFromDay n) ++ lit ", " ++
  numberToString (JSDate.YearFromDay n).

(** A word of a date: characters that are no separators and no hyphens,
    at least one. *)
Definition isDateWord (w : jsstring) : bool :=
  truthy w && forallb isWordChar w && negb (existsb isHyphen w).

(** Words with separators between them: the first word, then each
    separator with the word after it. *)
Fixpoint sentence (w : jsstring) (rest : list (jsstring * jsstring)) : jsstring :=
  match rest with
  | [] => w
  | (sep, w') :: rest' => w ++ sep ++ sentence w' rest'
  end.

(** A run of separators of [/[,\s]+/], at least one. *)
Definition isSepRun (sep : jsstring) : bool :=
  truthy sep && forallb isDateSep sep.

(** Words and separators that make a text of date tokens. *)
Definition wellFormed (rest : list (jsstring * jsstring)) : Prop :=
  Forall (fun p => isSepRun (fst p) = true /\ isDateWord (snd p) = true) rest.

(** The calls on the driver that [scrapeWebsite] makes between the
    creation of the page and the reading of the selectors, each with its
    outcome, in the order of the source. *)
Definition forget {A : Type} (r : result A) : result unit :=
  match r with
  | Ok _ => Ok tt
  | Throw e => Throw e
  end.

Definition navigation (session : Session) (config : WebsiteConfig.t)
    : list (action * result unit) :=
  [ (Goto (WebsiteConfig.url config), goto session (WebsiteConfig.url config)) ]
  ++ match WebsiteConfig.upcomingEventsSelector config with
     | Some selector =>
         if truthy selector
         then [ (WaitForSelector selector, waitForSelector session selector) ]
         else []
     | None => []
     end
  ++ [ (WaitForSelector (WebsiteConfig.eventListSelector config),
        waitForSelector session (WebsiteConfig.eventListSelector config));
       (InnerHTML (WebsiteConfig.eventSectionSelector config),
        forget (innerHTML session (WebsiteConfig.eventSectionSelector config))) ].

(** The calls made of a list of calls when the first failure ends it,
    and that failure. *)
Fixpoint untilFailure (calls : list (action * result unit))
    : list action * option error :=
  match calls with
  | [] => ([], None)
  | (a, Ok _) :: rest =>
      let (done, failure) := untilFailure rest in (a :: done, failure)
  | (a, Throw e) :: _ => ([a], Some e)
  end.

(** The selectors a scrape works with: those of the service, and the
    defaults when the service fails. *)
Definition resolvedSelectors
    (generateObject : jsstring -> result GenerateObjectResult)
    (html : jsstring) (defaultSelectors : SelectorSet) : SelectorSet :=
  match generateObject (selectorPrompt html) with
  | Ok r => object_selectors r
  | Throw _ => defaultSelectors
  end.

(** A browser in which every call succeeds, on a page with the example
    block; the same with a list that never shows; and a service that is
    down. *)
Definition exampleSession : Session :=
  {| launch := Ok tt;
     newPage := Ok tt;
     goto := fun _ => Ok tt;
     waitForSelector := fun _ => Ok tt;
     innerHTML := fun _ => Ok (lit "<div>Mock HTML</div>");
     content := fun _ => [exampleBlock];
     close := Ok tt |}.

Definition timeoutSession : Session :=
  {| launch := Ok tt;
     newPage := Ok tt;
     goto := fun _ => Ok tt;
     waitForSelector := fun _ => Throw (Rejected (lit "Timeout 10000ms exceeded"));
     innerHTML := fun _ => Ok (lit "<div>Mock HTML</div>");
     content := fun _ => [exampleBlock];
     close := Ok tt |}.

Definition serviceDown (prompt : jsstring) : result GenerateObjectResult :=
  Throw (Rejected (lit "LLM failed")).

Definition exampleProcess : Process :=
  {| nowISO := lit "2024-07-04T18:30:00.000Z";
     dirname := lit "/app";
     pathJoin := fun dir file => dir ++ lit "/" ++ file |}.

(** The calls made on the page. *)
Definition isPageCall (a : action) : bool :=
  match a with
  | Goto _ | WaitForSelector _ | InnerHTML _ => true
  | _ => false
  end.

(** A session in which the browser was launched and gave a page: the
    sessions in which [scrapeWebsite] enters its [try] block. *)
Definition pageCreated (session : Session) : bool :=
  match launch session, newPage session with
  | Ok _, Ok _ => true
  | _, _ => false
  end.

(** A run in which the event list of one site never shows. *)
Definition flakySessions (failing : jsstring) (key : jsstring) : Session :=
  if jsstring_eqb key failing then timeoutSession else exampleSession.

(** * Properties *)

(** ** Selector resolution *)

(** C5.  Whatever the markup and the defaults, [getSelectorsFromLLM]
    returns normally: with the selector object of the service when the
    call resolves, as it is and without any field of the defaults, and
    with the defaults, unchanged, when the call fails in any way. *)
Theorem getSelectorsFromLLM_resolves
    (generateObject : jsstring -> result GenerateObjectResult)
    (html : jsstring) (defaultSelectors : SelectorSet) :
  (exists selectors,
      getSelectorsFromLLM generateObject html defaultSelectors = Ok selectors) /\
  (forall r,
      generateObject (selectorPrompt html) = Ok r ->
      getSelectorsFromLLM generateObject html defaultSelectors
        = Ok (object_selectors r)) /\
  (forall e,
      generateObject (selectorPrompt html) = Throw e ->
      getSelectorsFromLLM generateObject html defaultSelectors
        = Ok defaultSelectors).
Proof.
  unfold getSelectorsFromLLM.
  destruct (generateObject (selectorPrompt html)) as [r | e] eqn:Hcall; cbn.
  - split; [eauto | split; intros ? Heq; congruence].
  - split; [eauto | split; intros ? Heq; congruence].
Qed.

(** The two cases of C5 on the selectors of the sources: a service that
    answers with the SNS selectors, and one that fails. *)
Lemma getSelectorsFromLLM_resolves_witness :
  getSelectorsFromLLM (fun _ => Ok {| object_selectors := snsSelectors |})
    (lit "<div>Mock HTML</div>") stateroomSelectors = Ok snsSelectors /\
  getSelectorsFromLLM (fun _ => Throw (Rejected (lit "LLM failed")))
    (lit "<div>Mock HTML</div>") stateroomSelectors = Ok stateroomSelectors.
Proof.
  split.
  - apply (proj1 (proj2 (getSelectorsFromLLM_resolves
            (fun _ => Ok {| object_selectors := snsSelectors |})
            (lit "<div>Mock HTML</div>") stateroomSelectors))
            {| object_selectors := snsSelectors |}).
    reflexivity.
  - apply (proj2 (proj2 (getSelectorsFromLLM_resolves
            (fun _ => Throw (Rejected (lit "LLM failed")))
            (lit "<div>Mock HTML</div>") stateroomSelectors))
            (Rejected (lit "LLM failed"))).
    reflexivity.
Defined.

(** ** Output cleaning *)

Lemma truthy_iff (s : jsstring) : truthy s = true <-> s <> [].
Proof. destruct s; cbn; split; congruence. Qed.

Lemma isComplete_iff (e : Event) : isComplete e = true <-> complete e.
Proof.
  unfold isComplete, complete. split.
  - intros H.
    destruct e as [[w|] [v|] [p|] [t|] [d|] [l|]]; cbn in H;
      rewrite ?andb_false_r in H; try discriminate.
    repeat (apply andb_prop in H; destruct H as [H ?]).
    exists w, v, p, t, d, l. rewrite <- !truthy_iff. auto 10.
  - intros (w & v & p & t & d & l & -> & Hw & Hv & Hp & Ht & Hd & Hl).
    cbn. rewrite <- truthy_iff in Hw, Hv, Hp, Ht, Hd, Hl.
    now rewrite Hw, Hv, Hp, Ht, Hd, Hl.
Qed.

Lemma filter_cleaned (data : list Event) : cleaned data (filter isComplete data).
Proof.
  induction data as [| e data IH]; cbn.
  - constructor.
  - destruct (isComplete e) eqn:He.
    + apply cleaned_keep; [now apply isComplete_iff | exact IH].
    + apply cleaned_drop; [| exact IH].
      intros Hc. apply isComplete_iff in Hc. congruence.
Qed.

Lemma cleaned_functional (data out out' : list Event) :
  cleaned data out -> cleaned data out' -> out = out'.
Proof.
  intros H. revert out'.
  induction H; intros out' H'; inversion H'; subst;
    try reflexivity; try contradiction.
  - f_equal. auto.
  - auto.
Qed.

(** C9.  [saveToJson] writes one array: the input records with exactly
    the records that have an empty or missing required field taken out
    and all others in their original order.  So a record is written if
    and only if it is an input record with six non-empty fields, and an
    input made of complete records only is written as it is. *)
Theorem saveToJson_writes_cleaned (data : list Event) (filename : jsstring) :
  exists out,
    writtenArray (saveToJson data filename) = Some out /\
    cleaned data out /\
    (forall out', cleaned data out' -> out' = out) /\
    (forall e, In e out <-> In e data /\ complete e) /\
    (Forall complete data -> out = data).
Proof.
  exists (filter isComplete data). cbn.
  split; [reflexivity |].
  split; [apply filter_cleaned |].
  split; [| split].
  - intros out' H. eapply cleaned_functional; [exact H | apply filter_cleaned].
  - intros e. rewrite filter_In, isComplete_iff. reflexivity.
  - intros Hall. induction Hall as [| e l He _ IH]; cbn; [reflexivity |].
    apply isComplete_iff in He. rewrite He. now f_equal.
Qed.

(** C9 on the three records of the test suite followed by a record
    without a price. *)
Lemma saveToJson_writes_cleaned_witness :
  let full site :=
    mkEvent (Some (lit site)) (Some (lit "Test Venue")) (Some (lit "mockValue"))
      (Some (lit "mockValue")) (Some (lit "Thu, Jul 4, 2024"))
      (Some (lit "mockValue")) in
  let partial :=
    mkEvent (Some (lit "eccles")) (Some (lit "Test Venue")) (Some [])
      (Some (lit "mockValue")) (Some (lit "Thu, Jul 4, 2024")) None in
  exists out,
    writtenArray
      (saveToJson [full "commonwealth"; partial; full "snspresents"]%string
         (lit "test.json")) = Some out /\
    out = [full "commonwealth"; full "snspresents"]%string.
Proof.
  intros full partial.
  destruct (saveToJson_writes_cleaned
              [full "commonwealth"; partial; full "snspresents"]%string
              (lit "test.json")) as (out & Hw & _ & _ & _ & _).
  exists out. split; [exact Hw |].
  cbn in Hw. injection Hw as <-. reflexivity.
Defined.

(** ** URL canonicalisation *)

Lemma toString_clearSearch_list (u : URL.record) (segs : list jsstring) :
  URL.path u = URL.PathList segs ->
  exists before after,
    URL.toString u
      = before ++ match URL.query u with Some q => lit "?" ++ q | None => [] end
               ++ after /\
    URL.toString (URL.clearSearch u) = before ++ after.
Proof.
  intros Hpath.
  destruct u as [sch usr pw h pt pth q f]. cbn in Hpath. subst pth.
  exists (URL.serializeToPath (URL.mk sch usr pw h pt (URL.PathList segs) q f)),
         (match f with Some x => lit "#" ++ x | None => [] end).
  split; reflexivity.
Qed.

(** C10.  [removeSearchParams] never throws.  When the input parses as
    an absolute URL the result is the serialisation of the parsed URL
    with its query set to null: for a URL with a hierarchical path, the
    serialisation of the URL without its ["?query"] part.  When the
    input does not parse the result is the input.  So, the standard
    parser reading ["https://example.com?param=value"] as host
    [example.com] with the empty path segment and rejecting
    ["not a url"], the two results are ["https://example.com/"] and
    ["not a url"]. *)
Theorem removeSearchParams_clears_query (parse : URL.parser) (url : jsstring) :
  (exists out, removeSearchParams parse url = Ok out) /\
  (forall u,
      parse url = Some u ->
      removeSearchParams parse url = Ok (URL.toString (URL.clearSearch u)) /\
      URL.query (URL.clearSearch u) = None /\
      (forall segs,
          URL.path u = URL.PathList segs ->
          exists before after,
            URL.toString u
              = before ++ match URL.query u with
                          | Some q => lit "?" ++ q
                          | None => []
                          end ++ after /\
            URL.toString (URL.clearSearch u) = before ++ after)) /\
  (parse url = None -> removeSearchParams parse url = Ok url) /\
  (parse (lit "https://example.com?param=value") = Some exampleComURL ->
   removeSearchParams parse (lit "https://example.com?param=value")
     = Ok (lit "https://example.com/")) /\
  (parse (lit "not a url") = None ->
   removeSearchParams parse (lit "not a url") = Ok (lit "not a url")).
Proof.
  unfold removeSearchParams, URL.construct.
  split; [| split; [| split; [| split]]].
  - destruct (parse url); cbn; eauto.
  - intros u Hu. rewrite Hu. cbn. split; [reflexivity |]. split.
    + unfold URL.clearSearch, URL.stripTrailingSpaces. cbn.
      destruct (URL.path u), (URL.fragment u); reflexivity.
    + intros segs. apply toString_clearSearch_list.
  - intros Hu. rewrite Hu. reflexivity.
  - intros Hu. rewrite Hu. reflexivity.
  - intros Hu. rewrite Hu. reflexivity.
Qed.

(** C10 with the parser of plain URLs in the place of the platform's. *)
Lemma removeSearchParams_clears_query_witness :
  removeSearchParams plainURL (lit "https://example.com?param=value")
    = Ok (lit "https://example.com/") /\
  removeSearchParams plainURL (lit "not a url") = Ok (lit "not a url") /\
  removeSearchParams plainURL (lit "https://tickets.example.com/e/42?ref=list")
    = Ok (lit "https://tickets.example.com/e/42").
Proof.
  split; [| split].
  - apply (proj1 (proj2 (proj2 (proj2 (removeSearchParams_clears_query
                                         plainURL [])))));
      reflexivity.
  - apply (proj2 (proj2 (proj2 (proj2 (removeSearchParams_clears_query
                                         plainURL [])))));
      reflexivity.
  - destruct (proj1 (proj2 (removeSearchParams_clears_query plainURL
                              (lit "https://tickets.example.com/e/42?ref=list")))
                _ eq_refl) as [H _].
    exact H.
Defined.

(** ** Date normalisation: the month gate *)

(** C3 (the code departs from it).  A month-first date whose month is
    not written exactly as in the table of abbreviations is returned as
    it came: the gate that opens the month-first branch compares
    [parts[0].slice(0, 3)] with the abbreviations case-sensitively,
    although the month is resolved case-insensitively afterwards, as the
    weekday-first branch shows on the same month token. *)
Theorem formatDate_month_gate_case_sensitive (currentYear : Z) :
  formatDate currentYear (lit "jul 4, 2024") = Ok (lit "jul 4, 2024") /\
  formatDate currentYear (lit "JULY 4, 2024") = Ok (lit "JULY 4, 2024") /\
  formatDate currentYear (lit "Jul 4, 2024") = Ok (lit "Thu, Jul 4, 2024") /\
  formatDate currentYear (lit "Thu, jul 4, 2024") = Ok (lit "Thu, Jul 4, 2024").
Proof. repeat split; vm_compute; reflexivity. Qed.

(** ** String lemmas *)

Lemma jsstring_eqb_eq (a b : jsstring) : jsstring_eqb a b = true <-> a = b.
Proof.
  unfold jsstring_eqb. destruct (list_eq_dec ascii_dec a b); split; congruence.
Qed.

Lemma jsstring_eqb_refl (a : jsstring) : jsstring_eqb a a = true.
Proof. now apply jsstring_eqb_eq. Qed.

Lemma includes_In (arr : list jsstring) (x : jsstring) :
  includes arr x = true <-> In x arr.
Proof.
  unfold includes. rewrite existsb_exists. split.
  - intros (y & Hy & Heq). apply jsstring_eqb_eq in Heq. now subst.
  - intros H. exists x. split; [exact H | apply jsstring_eqb_refl].
Qed.

Lemma dropWhile_keeps (p : ascii -> bool) (c : ascii) (s : jsstring) :
  In c s -> p c = false -> In c (dropWhile p s).
Proof.
  intros Hin Hp. induction s as [| x s IH]; cbn; [exact Hin |].
  destruct (p x) eqn:Hx; [| exact Hin].
  destruct Hin as [-> | Hin]; [congruence | auto].
Qed.

Lemma trim_keeps (c : ascii) (s : jsstring) :
  In c s -> isWhiteSpace c = false -> In c (trim s).
Proof.
  intros Hin Hc. unfold trim.
  rewrite <- in_rev. apply dropWhile_keeps; [| exact Hc].
  rewrite <- in_rev. now apply dropWhile_keeps.
Qed.

Lemma truthy_of_In (c : ascii) (s : jsstring) : In c s -> truthy s = true.
Proof. destruct s; cbn; [contradiction | reflexivity]. Qed.

Lemma existsb_isHyphen_false (s : jsstring) :
  existsb isHyphen s = false <-> ~ In "-"%char s.
Proof.
  split.
  - intros H Hin. assert (existsb isHyphen s = true); [| congruence].
    apply existsb_exists. exists "-"%char. split; [exact Hin | reflexivity].
  - intros H. destruct (existsb isHyphen s) eqn:E; [| reflexivity].
    apply existsb_exists in E. destruct E as (c & Hc & Heq).
    unfold isHyphen in Heq. apply Ascii.eqb_eq in Heq. now subst.
Qed.

Lemma split_hyphen_free (s : jsstring) :
  existsb isHyphen s = false -> split "-"%char s = [s].
Proof.
  induction s as [| c s IH]; cbn; [reflexivity |].
  unfold isHyphen at 1. intros H. apply orb_false_elim in H as [Hc Hs].
  rewrite Hc, (IH Hs). reflexivity.
Qed.

Lemma split_at_hyphen (a b : jsstring) :
  existsb isHyphen a = false ->
  split "-"%char (a ++ "-"%char :: b) = a :: split "-"%char b.
Proof.
  induction a as [| c a IH]; cbn; [reflexivity |].
  unfold isHyphen at 1. intros H. apply orb_false_elim in H as [Hc Ha].
  rewrite Hc, (IH Ha). reflexivity.
Qed.

Lemma split_nonempty (sep : ascii) (s : jsstring) : split sep s <> [].
Proof.
  destruct s as [| c s]; cbn; [discriminate |].
  destruct (Ascii.eqb c sep); [discriminate |].
  destruct (split sep s); discriminate.
Qed.

(** An input with a character that is not white space passes the two
    guards of [formatDate], the sentinel apart. *)
Lemma formatDate_past_guards (currentYear : Z) (s : jsstring) :
  truthy (trim s) = true -> s <> lit "mockValue" ->
  formatDate currentYear s =
    (dateParts <- mapM (parseSingleDate currentYear)
                    (map trim (split "-"%char s)) ;;
     if (List.length dateParts =? 2)%nat then Ok (join (lit " - ") dateParts)
     else match dateParts with
          | first :: _ => Ok first
          | [] => Ok []
          end).
Proof.
  intros Ht Hs. unfold formatDate. rewrite Ht. cbn [negb orb].
  destruct (jsstring_eqb s (lit "mockValue")) eqn:E; [| reflexivity].
  apply jsstring_eqb_eq in E. contradiction.
Qed.

(** A hyphen-free input is one segment. *)
Lemma formatDate_single (currentYear : Z) (s : jsstring) :
  existsb isHyphen s = false -> truthy (trim s) = true -> s <> lit "mockValue" ->
  formatDate currentYear s = parseSingleDate currentYear (trim s).
Proof.
  intros Hh Ht Hs. rewrite formatDate_past_guards by assumption.
  rewrite split_hyphen_free by assumption. cbn.
  destruct (parseSingleDate currentYear (trim s)); reflexivity.
Qed.

Lemma dateTokens_truthy (s : jsstring) : dateTokens s <> [] -> truthy s = true.
Proof.
  destruct s; [| reflexivity]. cbn. congruence.
Qed.

Lemma digitsOf_nonempty (fuel : nat) (n : Z) : digitsOf fuel n <> [].
Proof.
  destruct fuel; cbn; [discriminate |].
  destruct (n <? 10); [discriminate |].
  destruct (digitsOf fuel (n / 10)); discriminate.
Qed.

Lemma numberToString_truthy (n : Z) : truthy (numberToString n) = true.
Proof.
  apply truthy_iff. unfold numberToString.
  destruct (n <? 0); [discriminate | apply digitsOf_nonempty].
Qed.

(** ** Date normalisation: pass-through and ranges *)

Lemma parseSingleDate_unrecognized (currentYear : Z) (segment : jsstring) :
  unrecognized segment = true ->
  parseSingleDate currentYear segment = Ok segment.
Proof.
  unfold unrecognized, parseSingleDate.
  destruct (dateTokens segment) as [| p0 rest]; [discriminate |].
  destruct (includes days p0).
  - destruct rest as [| month rest]; [discriminate |].
    cbn [nth_error]. unfold formatParts.
    destruct (findMonthIndex month); [discriminate | reflexivity].
  - destruct (includes months (slice03 p0)); [discriminate | reflexivity].
Qed.

Lemma parseSingleDate_returns (currentYear : Z) (segment : jsstring) :
  hasDateTokens segment = true ->
  exists out, parseSingleDate currentYear segment = Ok out.
Proof.
  unfold hasDateTokens, parseSingleDate.
  destruct (dateTokens segment) as [| p0 rest]; [discriminate |].
  assert (Hparts : forall year day m,
             exists out, formatParts currentYear segment (Some m) day year = Ok out).
  { intros year day m. unfold formatParts.
    destruct (findMonthIndex m); eauto. }
  destruct (includes days p0) eqn:Hd.
  - destruct rest as [| month rest]; [discriminate |]. intros _. apply Hparts.
  - intros _. destruct (includes months (slice03 p0)); [apply Hparts | eauto].
Qed.

(** The segments on which [parseSingleDate] throws: those without a
    token, where [parts[0]] is undefined, and those made of a weekday
    abbreviation alone, where [month] is. *)
Lemma parseSingleDate_throws (currentYear : Z) (segment : jsstring) :
  hasDateTokens segment = false ->
  parseSingleDate currentYear segment = Throw TypeError.
Proof.
  unfold hasDateTokens, parseSingleDate.
  destruct (dateTokens segment) as [| p0 [| p1 rest]];
    [reflexivity | | discriminate].
  intros H. apply negb_false_iff in H. rewrite H. reflexivity.
Qed.

(** A month word that no day follows is taken for a date all the same;
    the invalid [Date] is then written out field by field. *)
Remark formatDate_month_word_without_day (currentYear : Z) :
  formatDate currentYear (lit "May be later")
    = Ok (lit "undefined, May NaN, NaN").
Proof. vm_compute. reflexivity. Qed.

Lemma mapM_returns {A B : Type} (f : A -> result B) (l : list A) :
  Forall (fun a => exists b, f a = Ok b) l -> exists bs, mapM f l = Ok bs.
Proof.
  induction 1 as [| a l (b & Hb) _ (bs & Hbs)]; cbn; [eauto |].
  rewrite Hb. cbn. rewrite Hbs. cbn. eauto.
Qed.




(** Without a year token the year is the current one. *)
Lemma formatParts_default_year (currentYear : Z) (date : jsstring)
    (month day : option jsstring) :
  formatParts currentYear date month day None
    = formatParts currentYear date month day (Some (numberToString currentYear)).
Proof.
  unfold formatParts. now rewrite numberToString_truthy.
Qed.




(** ** Field extraction *)

Section Extraction.

Variable host : Host.
Variable element : ElementHandle.
Variable venueName : jsstring.

Lemma removeSearchParams_returns (parse : URL.parser) (url : jsstring) :
  removeSearchParams parse url = Ok (canonicalURL parse url).
Proof.
  unfold removeSearchParams, canonicalURL, URL.construct.
  destruct (parse url); reflexivity.
Qed.

Lemma eval_text_caught (selector : jsstring) :
  tryCatch (eval' element selector trimmedText) (fun _ => Ok [])
    = Ok (textAt element selector).
Proof. unfold eval', textAt. destruct (element selector); reflexivity. Qed.

Lemma eval_href_caught (selector : jsstring) :
  tryCatch (eval' element selector href) (fun _ => Ok [])
    = Ok (hrefAt element selector).
Proof. unfold eval', hrefAt. destruct (element selector); reflexivity. Qed.

Lemma fieldStep_stored (st : BlockState) (key : SelectorKey) (selector : jsstring) :
  truthy selector = true ->
  fieldStep host element venueName st (key, Some selector)
    = match key with
      | Kdate =>
          d <- formatDate (currentYear host) (textAt element selector) ;;
          Ok (withData (setField Kdate d) st)
      | _ => Ok (stored host element venueName key selector st)
      end.
Proof.
  intros Hsel. unfold fieldStep. rewrite Hsel. cbn [negb].
  rewrite eval_text_caught. cbn [bind].
  destruct key; cbn [storeField stored]; try reflexivity.
  - destruct (truthy (textAt element selector)); reflexivity.
  - rewrite eval_href_caught. cbn [bind].
    rewrite removeSearchParams_returns. reflexivity.
Qed.

Lemma fieldStep_skips (st : BlockState) (key : SelectorKey) (v : option jsstring) :
  match v with Some selector => truthy selector = false | None => True end ->
  fieldStep host element venueName st (key, v) = Ok st.
Proof.
  unfold fieldStep. destruct v as [selector |]; [| reflexivity].
  intros ->. reflexivity.
Qed.

Lemma forEntries_returns (selectors : SelectorSet) :
  datesFormat host element selectors ->
  forall st, exists st', forEntries host element venueName selectors st = Ok st'.
Proof.
  induction selectors as [| [key v] rest IH]; intros Hd st; cbn [forEntries].
  - eauto.
  - assert (Hstep : exists st1,
               fieldStep host element venueName st (key, v) = Ok st1).
    { destruct v as [selector |]; [| rewrite fieldStep_skips; cbn; eauto].
      destruct (truthy selector) eqn:Hsel;
        [| rewrite fieldStep_skips; cbn; eauto].
      rewrite fieldStep_stored by assumption.
      destruct key; eauto.
      destruct (Hd selector) as [Hnone | (d & Hfmt)]; [now left | |].
      - unfold textAt. rewrite Hnone. cbn. eauto.
      - rewrite Hfmt. cbn. eauto. }
    destruct Hstep as (st1 & ->). cbn [bind].
    apply IH. intros selector Hin. apply Hd. now right.
Qed.


End Extraction.

Lemma mapM_length {A B : Type} (f : A -> result B) (l : list A) (bs : list B) :
  mapM f l = Ok bs -> List.length bs = List.length l.
Proof.
  revert bs. induction l as [| a l IH]; cbn; intros bs H.
  - injection H as <-. reflexivity.
  - destruct (f a) as [b | e]; cbn in H; [| discriminate].
    destruct (mapM f l) as [bs' | e]; cbn in H; [| discriminate].
    injection H as <-. cbn. f_equal. now apply IH.
Qed.

(** A page whose blocks have date texts that [formatDate] returns on
    gives one record for each block, whatever else is missing. *)
Lemma scrapeEvents_returns (host : Host) (page : Page) (selectors : SelectorSet)
    (eventListSelector websiteKey venueName : jsstring) :
  (forall element,
      In element (page eventListSelector) ->
      datesFormat host element selectors) ->
  exists records,
    scrapeEvents host page selectors eventListSelector websiteKey venueName
      = Ok records /\
    List.length records = List.length (page eventListSelector).
Proof.
  intros Hdates. unfold scrapeEvents.
  destruct (mapM_returns
              (fun element =>
                 scrapeBlock host element venueName selectors websiteKey)
              (page eventListSelector)) as (records & Hrec).
  - apply Forall_forall. intros element Hin.
    destruct (forEntries_returns host element venueName selectors
                (Hdates element Hin)
                (mkBlock (mkEvent (Some websiteKey) None None None None None)
                   [] [] [])) as (st' & Hst).
    unfold scrapeBlock. rewrite Hst. cbn. eauto.
  - exists records. split; [exact Hrec |]. eapply mapM_length, Hrec.
Qed.

(** A date text that was found and on which [formatDate] throws, such as
    a range left open, takes the block with it. *)
Remark scrapeBlock_date_exception :
  scrapeBlock (exampleHost 2026)
    (fun _ => Some {| textContent := Some (lit "Jul 4 -"); href := [] |})
    (lit "SNS Presents") snsSelectors (lit "snspresents")
  = Throw TypeError.
Proof. vm_compute. reflexivity. Qed.


(** ** Title assembly *)

Lemma selectorFor_absent (key : SelectorKey) (selectors : SelectorSet) :
  ~ In key (map fst selectors) -> selectorFor key selectors = None.
Proof.
  induction selectors as [| [k v] rest IH]; cbn; [reflexivity |].
  intros Hnot. unfold key_eqb.
  destruct (SelectorKey_eq_dec k key) as [-> | _].
  - exfalso. apply Hnot. now left.
  - apply IH. intros Hin. apply Hnot. now right.
Qed.

Lemma selectorFor_skipped (key k : SelectorKey) (v : option jsstring)
    (rest : SelectorSet) :
  ~ In k (map fst rest) ->
  match v with Some selector => truthy selector = false | None => True end ->
  selectorFor key ((k, v) :: rest) = selectorFor key rest.
Proof.
  intros Hnot Hv. cbn. unfold key_eqb.
  destruct (SelectorKey_eq_dec k key) as [-> | _]; [| reflexivity].
  rewrite selectorFor_absent by assumption.
  destruct v as [selector |]; [now rewrite Hv | reflexivity].
Qed.

Section Assembly.

Variable host : Host.
Variable element : ElementHandle.
Variable venueName : jsstring.

Lemma merged_skipped (k : SelectorKey) (v : option jsstring)
    (rest : SelectorSet) (st : BlockState) :
  ~ In k (map fst rest) ->
  match v with Some selector => truthy selector = false | None => True end ->
  (d <- dateValue host element ((k, v) :: rest) ;;
   Ok (merged host element venueName ((k, v) :: rest) d st))
  = (d <- dateValue host element rest ;;
     Ok (merged host element venueName rest d st)).
Proof.
  intros Hnot Hv.
  unfold merged, dateValue, venueValue, priceValue, linkValue.
  now rewrite !(fun key => selectorFor_skipped key k v rest Hnot Hv).
Qed.

Lemma forEntries_merged (selectors : SelectorSet) :
  NoDup (map fst selectors) ->
  forall st,
    forEntries host element venueName selectors st
      = (d <- dateValue host element selectors ;;
         Ok (merged host element venueName selectors d st)).
Proof.
  induction selectors as [| [k v] rest IH]; intros Hnodup st.
  - destruct st as [[] ? ? ?]. reflexivity.
  - cbn [map fst] in Hnodup. inversion Hnodup as [| ? ? Hnot Hrest]; subst.
    cbn [forEntries].
    assert (Hskip : match v with
                    | Some selector => truthy selector = false
                    | None => True
                    end ->
                    (st' <- fieldStep host element venueName st (k, v) ;;
                     forEntries host element venueName rest st')
                    = (d <- dateValue host element ((k, v) :: rest) ;;
                       Ok (merged host element venueName ((k, v) :: rest) d st))).
    { intros Hv. rewrite fieldStep_skips by assumption. cbn [bind].
      rewrite IH by assumption. symmetry. now apply merged_skipped. }
    destruct v as [selector |]; [| now apply Hskip].
    destruct (truthy selector) eqn:Hsel; [| now apply Hskip].
    clear Hskip. rewrite fieldStep_stored by assumption.
    pose proof (selectorFor_absent k rest Hnot) as Habs.
    destruct k;
      try (cbn [bind]; rewrite IH by assumption);
      unfold merged, dateValue, venueValue, priceValue, linkValue, stored;
      cbn [selectorFor key_eqb]; unfold key_eqb; cbn;
      rewrite ?Hsel, ?Habs; cbn.
    all: try (destruct (selectorFor Kdate rest);
              [destruct (formatDate _ _) |]; reflexivity).
    destruct (formatDate (currentYear host) (textAt element selector));
      cbn; [| reflexivity].
    rewrite IH by assumption.
    unfold merged, dateValue, venueValue, priceValue, linkValue.
    rewrite Habs. reflexivity.
Qed.

Lemma join_eventTitle (p m s : jsstring) :
  join (lit " ") (eventTitle host p m s) = titleOf (toUpperCase host) p m s.
Proof.
  unfold eventTitle, titleOf.
  destruct (truthy p), (truthy m), (truthy s); cbn;
    rewrite ?app_nil_r; reflexivity.
Qed.

(** C7.  For a selector object (each property name once) the block
    ends, unless the date text makes [formatDate] throw, in the record
    whose [event] field is the title put together from the presenter
    text in upper case, the main-artist text and the supporting-acts
    text, in this order, the empty ones left out and one space between
    neighbours; the other five fields hold the site key and what the
    venue, price, date and link selectors give.  The texts under the
    [event], [pretitle] and [subtitle] selectors reach the record through
    the title only. *)
Theorem scrapeBlock_assembles_title (selectors : SelectorSet) (websiteKey : jsstring) :
  NoDup (map fst selectors) ->
  let text := textFor element selectors in
  scrapeBlock host element venueName selectors websiteKey
    = (d <- dateValue host element selectors ;;
       Ok (mkEvent (Some websiteKey)
             (venueValue element venueName selectors)
             (priceValue element selectors)
             (Some (join (lit " ")
                      (eventTitle host (text Kpretitle) (text Kevent)
                         (text Ksubtitle))))
             d
             (linkValue host element selectors))) /\
  join (lit " ") (eventTitle host (text Kpretitle) (text Kevent) (text Ksubtitle))
    = titleOf (toUpperCase host) (text Kpretitle) (text Kevent) (text Ksubtitle).
Proof.
  intros Hnodup text. split; [| apply join_eventTitle].
  unfold scrapeBlock. rewrite forEntries_merged by assumption.
  destruct (dateValue host element selectors) as [d | e]; [| reflexivity].
  cbn. unfold text, textFor, orElse.
  destruct (venueValue element venueName selectors),
           (priceValue element selectors),
           (linkValue host element selectors), d; reflexivity.
Qed.

End Assembly.

(** C7 on the example block under the State Room selectors. *)
Lemma scrapeBlock_assembles_title_witness :
  scrapeBlock (exampleHost 2026) exampleBlock (lit "The State Room")
    stateroomSelectors (lit "stateroom")
  = Ok (mkEvent (Some (lit "stateroom")) (Some (lit "kuer presents"))
          (Some (lit "$35.50")) (Some (lit "KUER PRESENTS Josh Ritter"))
          (Some (lit "Thu, Jul 4, 2024"))
          (Some (lit "https://tickets.example.com/e/42"))).
Proof.
  assert (Hnodup : NoDup (map fst stateroomSelectors)).
  { cbn. repeat constructor; cbn; intuition discriminate. }
  rewrite (proj1 (scrapeBlock_assembles_title (exampleHost 2026) exampleBlock
                    (lit "The State Room") stateroomSelectors (lit "stateroom")
                    Hnodup)).
  reflexivity.
Defined.

(** ** Price normalisation *)

Lemma startsWith_iff (p s : jsstring) :
  startsWith p s = true <-> exists post, s = p ++ post.
Proof.
  revert s. induction p as [| a p IH]; intros s; cbn.
  - split; [eauto | reflexivity].
  - destruct s as [| c s].
    + split; [discriminate | intros (post & H); discriminate].
    + rewrite andb_true_iff, Ascii.eqb_eq, IH. split.
      * intros (-> & post & ->). eauto.
      * intros (post & H). injection H as -> ->. eauto.
Qed.

Lemma contains_iff (needle s : jsstring) :
  contains needle s = true <-> exists pre post, s = pre ++ needle ++ post.
Proof.
  induction s as [| c s IH].
  - cbn [contains]. rewrite orb_false_r, startsWith_iff. split.
    + intros (post & H). exists [], post. exact H.
    + intros (pre & post & H). destruct pre; [eauto | discriminate].
  - cbn [contains]. rewrite orb_true_iff, startsWith_iff, IH. split.
    + intros [(post & H) | (pre & post & H)].
      * exists [], post. exact H.
      * exists (c :: pre), post. cbn. now f_equal.
    + intros (pre & post & H). destruct pre as [| x pre]; cbn in H.
      * left. eauto.
      * right. injection H as _ H. eauto.
Qed.

Lemma contains_sold_out (text : jsstring) :
  contains (lit "sold out") (toLowerCase text) = true <-> containsSoldOut text.
Proof.
  rewrite contains_iff. unfold containsSoldOut, toLowerCase. split.
  - intros (pre & post & H).
    apply map_eq_app in H as (pre' & rest & -> & <- & H).
    apply map_eq_app in H as (mid & post' & -> & H & <-).
    exists pre', mid, post'. auto.
  - intros (pre & mid & post & -> & H).
    exists (map lowerChar pre), (map lowerChar post).
    now rewrite !map_app, H.
Qed.

Lemma takeWhile_dropWhile (p : ascii -> bool) (s : jsstring) :
  takeWhile p s ++ dropWhile p s = s.
Proof.
  induction s as [| c s IH]; cbn; [reflexivity |].
  destruct (p c); cbn; [now f_equal | reflexivity].
Qed.

Lemma takeWhile_all (p : ascii -> bool) (s : jsstring) :
  forallb p (takeWhile p s) = true.
Proof.
  induction s as [| c s IH]; cbn; [reflexivity |].
  destruct (p c) eqn:Hc; cbn; [now rewrite Hc | reflexivity].
Qed.

Lemma takeWhile_app (p : ascii -> bool) (a s : jsstring) :
  forallb p a = true -> takeWhile p (a ++ s) = a ++ takeWhile p s.
Proof.
  induction a as [| c a IH]; cbn; [reflexivity |].
  intros H. apply andb_prop in H as [Hc Ha]. now rewrite Hc, IH.
Qed.

Lemma dropWhile_app (p : ascii -> bool) (a s : jsstring) :
  forallb p a = true -> dropWhile p (a ++ s) = dropWhile p s.
Proof.
  induction a as [| c a IH]; cbn; [reflexivity |].
  intros H. apply andb_prop in H as [Hc Ha]. now rewrite Hc, IH.
Qed.

Lemma app_same_length {A : Type} (a a' b b' : list A) :
  a ++ b = a' ++ b' -> List.length a = List.length a' -> a = a' /\ b = b'.
Proof.
  revert a'. induction a as [| x a IH]; intros [| x' a'] H Hlen;
    try discriminate; cbn in *.
  - auto.
  - injection H as -> H. injection Hlen as Hlen.
    destruct (IH a' H Hlen) as [-> ->]. auto.
Qed.

Lemma occursAt_0 (m s : jsstring) :
  occursAt m s 0 <-> exists post, s = m ++ post.
Proof.
  unfold occursAt. split.
  - intros (pre & post & -> & Hlen).
    destruct pre; [exists post; reflexivity | discriminate].
  - intros (post & ->). exists [], post. auto.
Qed.

Lemma occursAt_S (m : jsstring) (c : ascii) (s : jsstring) (j : nat) :
  occursAt m (c :: s) (S j) <-> occursAt m s j.
Proof.
  unfold occursAt. split.
  - intros (pre & post & H & Hlen). destruct pre as [| x pre]; [discriminate |].
    injection H as _ ->. injection Hlen as Hlen. eauto.
  - intros (pre & post & -> & Hlen). exists (c :: pre), post. cbn. auto.
Qed.

Lemma isPriceToken_truthy (m : jsstring) : isPriceToken m -> truthy m = true.
Proof. intros (ds & frac & -> & _). reflexivity. Qed.

Lemma matchPriceHere_Some (s m : jsstring) :
  matchPriceHere s = Some m ->
  occursAt m s 0 /\ isPriceToken m /\
  (forall m', isPriceToken m' -> occursAt m' s 0 ->
              (List.length m' <= List.length m)%nat).
Proof.
  destruct s as [| c rest]; [discriminate |]. cbn [matchPriceHere].
  destruct (Ascii.eqb c "$") eqn:Hc; [| discriminate].
  apply Ascii.eqb_eq in Hc. subst c.
  pose proof (takeWhile_dropWhile isDigit rest) as Hsplit.
  pose proof (takeWhile_all isDigit rest) as Hdigits.
  remember (takeWhile isDigit rest) as ds eqn:Hds.
  remember (dropWhile isDigit rest) as tail eqn:Htl.
  destruct ds as [| d0 ds0]; [discriminate |].
  intros H. injection H as <-.
  set (frac := match tail with
               | dot :: a :: b :: _ =>
                   if Ascii.eqb dot "." && isDigit a && isDigit b
                   then [dot; a; b] else []
               | _ => []
               end).
  assert (Hfrac : (frac = [] \/
                   exists a b, frac = ["."%char; a; b] /\
                               isDigit a = true /\ isDigit b = true) /\
                  exists post, tail = frac ++ post).
  { subst frac. destruct tail as [| dot [| a [| b post]]];
      try (split; [now left | eexists; reflexivity]).
    destruct (Ascii.eqb dot ".") eqn:Hdot; cbn [andb];
      [| split; [now left | eexists; reflexivity]].
    destruct (isDigit a) eqn:Ha; cbn [andb];
      [| split; [now left | eexists; reflexivity]].
    destruct (isDigit b) eqn:Hb;
      [| split; [now left | eexists; reflexivity]].
    apply Ascii.eqb_eq in Hdot. subst dot.
    split; [right; eauto | exists post; reflexivity]. }
  destruct Hfrac as (Hshape & post & Htail).
  split; [| split].
  - apply occursAt_0. exists post.
    rewrite <- Hsplit, Htail. cbn. now rewrite <- !app_assoc.
  - exists (d0 :: ds0), frac. repeat split; [discriminate | assumption | assumption].
  - intros m' (ds' & frac' & -> & Hne & Hd' & Hshape') Hocc.
    apply occursAt_0 in Hocc as (post' & Hocc).
    cbn in Hocc. injection Hocc as Hrest. rewrite <- app_assoc in Hrest.
    assert (Htake : d0 :: ds0 = ds' ++ takeWhile isDigit (frac' ++ post')).
    { rewrite Hds, Hrest. now apply takeWhile_app. }
    assert (Hdrop : tail = dropWhile isDigit (frac' ++ post')).
    { rewrite Htl, Hrest. now apply dropWhile_app. }
    destruct Hshape' as [-> | (a & b & -> & Ha & Hb)].
    + apply (f_equal (@List.length ascii)) in Htake.
      rewrite length_app in Htake. cbn in Htake |- *.
      rewrite !length_app. cbn. lia.
    + cbn in Htake, Hdrop. rewrite app_nil_r in Htake.
      assert (frac = ["."%char; a; b]) as ->.
      { subst frac. rewrite Hdrop. cbn. now rewrite Ha, Hb. }
      apply (f_equal (@List.length ascii)) in Htake.
      cbn in Htake |- *. rewrite !length_app. cbn. lia.
Qed.

Lemma matchPriceHere_None (s : jsstring) :
  matchPriceHere s = None ->
  forall m, isPriceToken m -> ~ occursAt m s 0.
Proof.
  intros Hnone m (ds & frac & -> & Hne & Hd & _) Hocc.
  apply occursAt_0 in Hocc as (post & ->).
  cbn in Hnone. rewrite <- app_assoc, takeWhile_app in Hnone by assumption.
  destruct ds as [| d0 ds0]; [congruence |]. discriminate.
Qed.

Lemma matchPrice_unfold (s : jsstring) :
  matchPrice s = match matchPriceHere s with
                 | Some m => Some m
                 | None => match s with
                           | [] => None
                           | _ :: s' => matchPrice s'
                           end
                 end.
Proof. destruct s; reflexivity. Qed.

Lemma matchPrice_Some (s m : jsstring) :
  matchPrice s = Some m -> firstPriceToken s m.
Proof.
  revert m. induction s as [| c s IH]; intros m; rewrite matchPrice_unfold.
  - destruct (matchPriceHere []) eqn:Hhere; [discriminate | discriminate].
  - destruct (matchPriceHere (c :: s)) as [m0 |] eqn:Hhere.
    + intros H. injection H as ->.
      destruct (matchPriceHere_Some _ _ Hhere) as (Hocc & Htok & Hlong).
      exists 0%nat. repeat split; try assumption. intros; lia.
    + intros H. destruct (IH m H) as (i & Hocc & Htok & Hleft & Hlong).
      exists (S i). repeat split.
      * now apply occursAt_S.
      * exact Htok.
      * intros m' [| j] Htok' Hocc'.
        -- exfalso. eapply matchPriceHere_None; eauto.
        -- apply occursAt_S in Hocc'. specialize (Hleft m' j Htok' Hocc'). lia.
      * intros m' Htok' Hocc'. apply occursAt_S in Hocc'. auto.
Qed.

Lemma matchPrice_None (s : jsstring) :
  matchPrice s = None -> noPriceToken s.
Proof.
  induction s as [| c s IH]; rewrite matchPrice_unfold.
  - intros _ m i (ds & frac & -> & _) (pre & post & H & _).
    destruct pre; discriminate.
  - destruct (matchPriceHere (c :: s)) eqn:Hhere; [discriminate |].
    intros H m [| j] Htok Hocc.
    + eapply matchPriceHere_None; eauto.
    + apply occursAt_S in Hocc. eapply IH; eauto.
Qed.

Lemma firstPriceToken_unique (s m m' : jsstring) :
  firstPriceToken s m -> firstPriceToken s m' -> m = m'.
Proof.
  intros (i & Hocc & Htok & Hleft & Hlong) (i' & Hocc' & Htok' & Hleft' & Hlong').
  assert (i = i') as <-.
  { specialize (Hleft m' i' Htok' Hocc'). specialize (Hleft' m i Htok Hocc). lia. }
  assert (Hlen : List.length m = List.length m').
  { specialize (Hlong m' Htok' Hocc'). specialize (Hlong' m Htok Hocc). lia. }
  destruct Hocc as (pre & post & -> & Hpre).
  destruct Hocc' as (pre' & post' & Heq & Hpre').
  apply app_same_length in Heq as [_ Heq]; [| congruence].
  now apply app_same_length in Heq as [Heq _].
Qed.

(** C8.  The price stored for an extracted text is ["SOLD OUT"] when the
    text contains "sold out" in any letter case; otherwise it is the
    first price token of the text (a dollar sign, digits and possibly a
    dot with two digits: the leftmost one, taken as long as it goes)
    when there is one, and the trimmed text when there is none.  The
    cases leave no text out. *)
Theorem priceOf_rule (text : jsstring) :
  (containsSoldOut text -> priceOf text = lit "SOLD OUT") /\
  (~ containsSoldOut text ->
   forall m, firstPriceToken text m -> priceOf text = m) /\
  (~ containsSoldOut text -> noPriceToken text -> priceOf text = trim text) /\
  (containsSoldOut text \/ ~ containsSoldOut text) /\
  ((exists m, firstPriceToken text m) \/ noPriceToken text).
Proof.
  assert (Hcases : (exists m, matchPrice text = Some m /\ firstPriceToken text m)
                   \/ (matchPrice text = None /\ noPriceToken text)).
  { destruct (matchPrice text) as [m |] eqn:Hm.
    - left. exists m. split; [reflexivity | now apply matchPrice_Some].
    - right. split; [reflexivity | now apply matchPrice_None]. }
  unfold priceOf. split; [| split; [| split; [| split]]].
  - intros H. apply contains_sold_out in H. now rewrite H.
  - intros Hnot m Hfirst.
    destruct (contains (lit "sold out") (toLowerCase text)) eqn:Hc.
    { exfalso. apply Hnot. now apply contains_sold_out. }
    destruct Hcases as [(m0 & -> & Hfirst0) | (_ & Hnone)].
    + rewrite (firstPriceToken_unique _ _ _ Hfirst Hfirst0).
      destruct Hfirst0 as (_ & _ & Htok & _).
      now rewrite (isPriceToken_truthy _ Htok).
    + exfalso. destruct Hfirst as (i & Hocc & Htok & _).
      exact (Hnone m i Htok Hocc).
  - intros Hnot Hnone.
    destruct (contains (lit "sold out") (toLowerCase text)) eqn:Hc.
    { exfalso. apply Hnot. now apply contains_sold_out. }
    destruct Hcases as [(m0 & _ & (i & Hocc & Htok & _)) | (-> & _)].
    + exfalso. exact (Hnone m0 i Htok Hocc).
    + reflexivity.
  - destruct (contains (lit "sold out") (toLowerCase text)) eqn:Hc.
    + left. now apply contains_sold_out.
    + right. intros H. apply contains_sold_out in H. congruence.
  - destruct Hcases as [(m & _ & H) | (_ & H)]; eauto.
Qed.

(** C8 on three texts: a price among other words, a sold-out notice and
    a text without a price. *)
Lemma priceOf_rule_witness :
  priceOf (lit "Tickets $35.50") = lit "$35.50" /\
  priceOf (lit " Sold Out ") = lit "SOLD OUT" /\
  priceOf (lit " Free ") = lit "Free".
Proof.
  split; [| split].
  - apply (proj1 (proj2 (priceOf_rule (lit "Tickets $35.50")))).
    + intros H. apply contains_sold_out in H. vm_compute in H. discriminate.
    + apply matchPrice_Some. reflexivity.
  - apply (proj1 (priceOf_rule (lit " Sold Out "))).
    apply contains_sold_out. reflexivity.
  - apply (proj1 (proj2 (proj2 (priceOf_rule (lit " Free "))))).
    + intros H. apply contains_sold_out in H. vm_compute in H. discriminate.
    + apply matchPrice_None. reflexivity.
Defined.

(** ** The calendar *)

Section Calendar.

Import JSDate.

Lemma DayFromYear_succ (y : Z) :
  DayFromYear (y + 1) = DayFromYear y + DaysInYear y.
Proof.
  unfold DayFromYear, DaysInYear, InLeapYear.
  destruct (y mod 4 =? 0) eqn:H4; destruct (y mod 100 =? 0) eqn:H100;
    destruct (y mod 400 =? 0) eqn:H400; cbn [andb orb negb];
    rewrite ?Z.eqb_eq, ?Z.eqb_neq in *; Z.div_mod_to_equations; lia.
Qed.

(** [YearFromDay] is the year in which the day lies. *)
Lemma YearFromDay_unique (y d : Z) :
  DayFromYear y <= d < DayFromYear (y + 1) -> YearFromDay d = y.
Proof.
  unfold YearFromDay. intros H.
  destruct (Z.ltb_spec d (DayFromYear (1970 + 400 * d / 146097))) as [H1 | H1];
    [| destruct (Z.leb_spec (DayFromYear (1970 + 400 * d / 146097 + 1)) d)
         as [H2 | H2]];
    unfold DayFromYear in *; Z.div_mod_to_equations; lia.
Qed.

Lemma YearFromDay_spec (d : Z) :
  DayFromYear (YearFromDay d) <= d < DayFromYear (YearFromDay d + 1).
Proof.
  unfold YearFromDay.
  destruct (Z.ltb_spec d (DayFromYear (1970 + 400 * d / 146097))) as [H1 | H1];
    [| destruct (Z.leb_spec (DayFromYear (1970 + 400 * d / 146097 + 1)) d)
         as [H2 | H2]];
    unfold DayFromYear in *; Z.div_mod_to_equations; lia.
Qed.

(** Replaces the closed entries of the month table by their values. *)
Ltac month_table :=
  repeat match goal with
         | |- context [monthStart ?b ?k] =>
             let v := eval vm_compute in (monthStart b k) in
             progress change (monthStart b k) with v
         | H : context [monthStart ?b ?k] |- _ =>
             let v := eval vm_compute in (monthStart b k) in
             progress change (monthStart b k) with v in H
         | |- context [?a =? ?b] =>
             let v := eval vm_compute in (a =? b) in
             progress change (a =? b) with v
         | H : context [?a =? ?b] |- _ =>
             let v := eval vm_compute in (a =? b) in
             progress change (a =? b) with v in H
         end;
  cbv iota in *.

Lemma MakeDay_within_year (y m dt : Z) :
  validDay y m dt ->
  MakeDay y m dt = DayFromYear y + (monthStart (InLeapYear y) m + dt - 1) /\
  0 <= monthStart (InLeapYear y) m + dt - 1 < DaysInYear y /\
  monthStart (InLeapYear y) m <= monthStart (InLeapYear y) m + dt - 1 /\
  (m < 11 -> monthStart (InLeapYear y) m + dt - 1 < monthStart (InLeapYear y) (m + 1)).
Proof.
  intros [Hm Hd]. unfold MakeDay.
  assert (Hq : m / 12 = 0) by (Z.div_mod_to_equations; lia).
  assert (Hr : m mod 12 = m) by (Z.div_mod_to_equations; lia).
  rewrite Hq, Hr, Z.add_0_r. clear Hq Hr.
  assert (m = 0 \/ m = 1 \/ m = 2 \/ m = 3 \/ m = 4 \/ m = 5 \/ m = 6 \/
          m = 7 \/ m = 8 \/ m = 9 \/ m = 10 \/ m = 11) as Hcases by lia.
  unfold DaysInMonth, DaysInYear in *.
  destruct (InLeapYear y);
    repeat (destruct Hcases as [-> | Hcases]); try subst m;
    month_table; repeat split; lia.
Qed.

Lemma fields_of_MakeDay (y m dt : Z) :
  validDay y m dt ->
  YearFromDay (MakeDay y m dt) = y /\
  MonthFromDay (MakeDay y m dt) = m /\
  DateFromDay (MakeDay y m dt) = dt.
Proof.
  intros Hv. destruct (MakeDay_within_year y m dt Hv) as (Heq & Hin & Hlo & Hhi).
  assert (Hy : YearFromDay (MakeDay y m dt) = y).
  { apply YearFromDay_unique. rewrite DayFromYear_succ. lia. }
  assert (Hk : DayWithinYear (MakeDay y m dt)
               = monthStart (InLeapYear y) m + dt - 1).
  { unfold DayWithinYear. rewrite Hy. lia. }
  assert (Hmonth : MonthFromDay (MakeDay y m dt) = m).
  { unfold MonthFromDay. rewrite Hk, Hy. clear Heq Hy Hk.
    destruct Hv as [Hm Hd].
    assert (m = 0 \/ m = 1 \/ m = 2 \/ m = 3 \/ m = 4 \/ m = 5 \/ m = 6 \/
            m = 7 \/ m = 8 \/ m = 9 \/ m = 10 \/ m = 11) as Hcases by lia.
    unfold DaysInYear in Hin.
    destruct (InLeapYear y);
      repeat (destruct Hcases as [-> | Hcases]); try subst m;
      month_table;
      repeat match goal with
             | |- context [?a <? ?b] => destruct (Z.ltb_spec a b); try lia
             end. }
  split; [exact Hy |]. split; [exact Hmonth |].
  unfold DateFromDay. rewrite Hk, Hy, Hmonth. lia.
Qed.

Lemma MakeDay_in_range (y m dt : Z) :
  validDay y m dt -> 100 <= y <= 275759 -> Z.abs (MakeDay y m dt) <= maxDay.
Proof.
  intros Hv Hy. destruct (MakeDay_within_year y m dt Hv) as (Heq & Hin & _).
  rewrite Heq. unfold DaysInYear in Hin. unfold maxDay, DayFromYear.
  destruct (InLeapYear y); Z.div_mod_to_equations; lia.
Qed.

Lemma WeekDay_range (d : Z) : 0 <= WeekDay d < 7.
Proof. unfold WeekDay. Z.div_mod_to_equations. lia. Qed.

End Calendar.

(** ** Decimal digits *)

Lemma digitChar_digit (d : Z) :
  0 <= d <= 9 -> isDigit (digitChar d) = true /\ digitValue (digitChar d) = d.
Proof.
  intros H.
  assert (d = 0 \/ d = 1 \/ d = 2 \/ d = 3 \/ d = 4 \/ d = 5 \/ d = 6 \/
          d = 7 \/ d = 8 \/ d = 9) as Hcases by lia.
  repeat (destruct Hcases as [-> | Hcases]); try subst d; split; reflexivity.
Qed.

Lemma digitsValue_snoc (s : jsstring) (c : ascii) :
  digitsValue (s ++ [c]) = 10 * digitsValue s + digitValue c.
Proof. unfold digitsValue. now rewrite fold_left_app. Qed.

Lemma digitsOf_digits (fuel : nat) :
  forall n, 0 <= n < 2 ^ (Z.of_nat fuel + 1) ->
            forallb isDigit (digitsOf fuel n) = true /\
            digitsValue (digitsOf fuel n) = n.
Proof.
  induction fuel as [| fuel IH]; intros n Hn.
  - change (2 ^ (Z.of_nat 0 + 1)) with 2 in Hn. cbn [digitsOf].
    destruct (digitChar_digit n) as [Hd Hv]; [lia |].
    cbn. rewrite Hd. split; [reflexivity | unfold digitsValue; cbn; lia].
  - cbn [digitsOf]. destruct (Z.ltb_spec n 10) as [Hlt | Hge].
    + destruct (digitChar_digit n) as [Hd Hv]; [lia |].
      cbn. rewrite Hd. split; [reflexivity | unfold digitsValue; cbn; lia].
    + replace (Z.of_nat (S fuel) + 1) with (Z.succ (Z.of_nat fuel + 1)) in Hn by lia.
      rewrite Z.pow_succ_r in Hn by lia.
      destruct (IH (n / 10)) as [Hd Hv].
      { Z.div_mod_to_equations. lia. }
      destruct (digitChar_digit (n mod 10)) as [Hd0 Hv0].
      { Z.div_mod_to_equations. lia. }
      rewrite forallb_app, Hd, digitsValue_snoc, Hv, Hv0.
      cbn [forallb andb]. rewrite Hd0.
      split; [reflexivity | Z.div_mod_to_equations; lia].
Qed.

Lemma numberToString_digits (n : Z) :
  0 <= n ->
  forallb isDigit (numberToString n) = true /\
  digitsValue (numberToString n) = n.
Proof.
  intros Hn. unfold numberToString.
  destruct (Z.ltb_spec n 0) as [Hneg | _]; [lia |].
  apply digitsOf_digits. rewrite Z2Nat.id by apply Z.log2_nonneg.
  destruct (Z.eq_dec n 0) as [-> | Hnz]; [cbn; lia |].
  split; [lia | apply Z.log2_spec; lia].
Qed.

Lemma takeWhile_id (p : ascii -> bool) (s : jsstring) :
  forallb p s = true -> takeWhile p s = s.
Proof.
  induction s as [| c s IH]; cbn; [reflexivity |].
  intros H. apply andb_prop in H as [Hc Hs]. now rewrite Hc, IH.
Qed.

Lemma stripNonDigits_id (s : jsstring) :
  forallb isDigit s = true -> stripNonDigits s = s.
Proof.
  unfold stripNonDigits. induction s as [| c s IH]; cbn; [reflexivity |].
  intros H. apply andb_prop in H as [Hc Hs]. now rewrite Hc, IH.
Qed.

Lemma parseInt_digits (s : jsstring) :
  s <> [] -> forallb isDigit s = true -> parseInt s = Some (digitsValue s).
Proof.
  intros Hne Hd. unfold parseInt. rewrite takeWhile_id by assumption.
  destruct s; [contradiction | reflexivity].
Qed.

Lemma parseInt_numberToString (n : Z) :
  0 <= n -> parseInt (stripNonDigits (numberToString n)) = Some n.
Proof.
  intros Hn. destruct (numberToString_digits n Hn) as [Hd Hv].
  rewrite stripNonDigits_id, parseInt_digits, Hv; try assumption; [reflexivity |].
  apply truthy_iff, numberToString_truthy.
Qed.

Lemma digitValue_nonneg (c : ascii) : isDigit c = true -> 0 <= digitValue c.
Proof.
  unfold isDigit, digitValue. intros H. apply andb_prop in H as [H _].
  apply N.leb_le in H. lia.
Qed.

Lemma fold_digits_nonneg (s : jsstring) :
  forallb isDigit s = true ->
  forall acc, 0 <= acc ->
              0 <= fold_left (fun a c => 10 * a + digitValue c) s acc.
Proof.
  induction s as [| c s IH]; cbn [fold_left forallb]; intros H acc Hacc;
    [exact Hacc |].
  apply andb_prop in H as [Hc Hs]. apply IH; [exact Hs |].
  pose proof (digitValue_nonneg c Hc). lia.
Qed.

Lemma parseInt_nonneg (s : jsstring) (v : Z) : parseInt s = Some v -> 0 <= v.
Proof.
  unfold parseInt. pose proof (takeWhile_all isDigit s) as Hd.
  destruct (takeWhile isDigit s) as [| c ds] eqn:E; [discriminate |].
  intros H. injection H as <-. now apply fold_digits_nonneg.
Qed.

(** ** Tokens *)

Lemma isDigit_word (c : ascii) :
  isDigit c = true ->
  isWordChar c = true /\ isWhiteSpace c = false /\ isHyphen c = false.
Proof.
  destruct c as [[] [] [] [] [] [] [] []]; intros H; try discriminate H;
    repeat split; reflexivity.
Qed.

Lemma isWordChar_not_space (c : ascii) :
  isWordChar c = true -> isWhiteSpace c = false.
Proof.
  unfold isWordChar, isDateSep. intros H. apply negb_true_iff in H.
  now apply orb_false_elim in H as [_ H].
Qed.

Lemma digits_words (s : jsstring) :
  forallb isDigit s = true ->
  forallb isWordChar s = true /\ existsb isHyphen s = false.
Proof.
  induction s as [| c s IH]; cbn; [auto |].
  intros H. apply andb_prop in H as [Hc Hs].
  destruct (isDigit_word c Hc) as (Hw & _ & Hh).
  destruct (IH Hs) as [IHw IHh]. now rewrite Hw, Hh, IHw, IHh.
Qed.

Lemma dateTokens_run (b : bool) (s : jsstring) :
  filter truthy (splitRuns b s) = dateTokens s.
Proof.
  unfold dateTokens. destruct s as [| c s]; [reflexivity |].
  cbn [splitRuns]. destruct (isDateSep c); [| reflexivity].
  destruct b; reflexivity.
Qed.

Lemma dateTokens_sep (c : ascii) (s : jsstring) :
  isDateSep c = true -> dateTokens (c :: s) = dateTokens s.
Proof.
  intros Hc. unfold dateTokens at 1. cbn [splitRuns]. rewrite Hc.
  cbn [filter truthy]. apply dateTokens_run.
Qed.

Lemma splitRuns_word (w : jsstring) (c : ascii) (s : jsstring) :
  forallb isWordChar w = true -> isDateSep c = true ->
  splitRuns false (w ++ c :: s) = w :: splitRuns true s.
Proof.
  intros Hw Hc. induction w as [| x w IH]; cbn [app splitRuns].
  - now rewrite Hc.
  - cbn in Hw. apply andb_prop in Hw as [Hx Hw].
    unfold isWordChar in Hx. apply negb_true_iff in Hx.
    now rewrite Hx, IH.
Qed.

Lemma dateTokens_word (w : jsstring) (c : ascii) (s : jsstring) :
  forallb isWordChar w = true -> w <> [] -> isDateSep c = true ->
  dateTokens (w ++ c :: s) = w :: dateTokens s.
Proof.
  intros Hw Hne Hc. unfold dateTokens at 1.
  rewrite splitRuns_word by assumption. cbn [filter].
  apply truthy_iff in Hne. rewrite Hne. f_equal. apply dateTokens_run.
Qed.

Lemma splitRuns_last (w : jsstring) :
  forallb isWordChar w = true -> splitRuns false w = [w].
Proof.
  induction w as [| x w IH]; cbn [splitRuns]; [reflexivity |].
  intros Hw. cbn in Hw. apply andb_prop in Hw as [Hx Hw].
  unfold isWordChar in Hx. apply negb_true_iff in Hx.
  now rewrite Hx, IH.
Qed.

Lemma dateTokens_last (w : jsstring) :
  forallb isWordChar w = true -> w <> [] -> dateTokens w = [w].
Proof.
  intros Hw Hne. unfold dateTokens. rewrite splitRuns_last by assumption.
  cbn. apply truthy_iff in Hne. now rewrite Hne.
Qed.

(** A string that neither starts nor ends with white space is its own
    trimmed form. *)
Lemma trim_id (a b : ascii) (s : jsstring) :
  isWhiteSpace a = false -> isWhiteSpace b = false ->
  trim (a :: s ++ [b]) = a :: s ++ [b].
Proof.
  intros Ha Hb. unfold trim. cbn [dropWhile]. rewrite Ha.
  change (a :: s ++ [b]) with ((a :: s) ++ [b]).
  remember (a :: s) as l eqn:Hl.
  rewrite rev_unit. cbn [dropWhile]. rewrite Hb.
  change (b :: rev l) with ([b] ++ rev l).
  now rewrite rev_app_distr, rev_involutive.
Qed.

Lemma existsb_isHyphen_app (a b : jsstring) :
  existsb isHyphen (a ++ b) = existsb isHyphen a || existsb isHyphen b.
Proof. apply existsb_app. Qed.

(** ** Date normalisation: canonical form and idempotence *)

Lemma findIndex_bound {A : Type} (p : A -> bool) (arr : list A) (i : nat) :
  findIndex p arr = Some i -> (i < List.length arr)%nat.
Proof.
  revert i. induction arr as [| a arr IH]; cbn; intros i; [discriminate |].
  destruct (p a).
  - intros H. injection H as <-. lia.
  - destruct (findIndex p arr) as [j |]; cbn; [| discriminate].
    intros H. injection H as <-. specialize (IH j eq_refl). lia.
Qed.

Lemma findMonthIndex_bound (month : jsstring) (mi : nat) :
  findMonthIndex month = Some mi -> (mi < 12)%nat.
Proof. intros H. apply findIndex_bound in H. exact H. Qed.

Lemma days_words (w : jsstring) :
  In w days ->
  forallb isWordChar w = true /\ existsb isHyphen w = false /\
  exists a t, w = a :: t /\ isWhiteSpace a = false.
Proof.
  intros H. cbn in H.
  repeat (destruct H as [<- | H];
          [repeat split; try reflexivity; eexists _, _; split; reflexivity |]).
  contradiction.
Qed.

Lemma months_words (mi : nat) :
  (mi < 12)%nat ->
  forallb isWordChar (nth mi months []) = true /\
  existsb isHyphen (nth mi months []) = false /\
  nth mi months [] <> [] /\
  findMonthIndex (nth mi months []) = Some mi.
Proof.
  intros H.
  do 12 (destruct mi as [| mi];
         [repeat split; try reflexivity; discriminate |]).
  lia.
Qed.

Lemma fullYear_ge (y : Z) : 0 <= y -> 100 <= fullYear y.
Proof.
  unfold fullYear. intros H.
  destruct (Z.leb_spec 0 y); destruct (Z.leb_spec y 99); cbn [andb]; lia.
Qed.

Lemma fullYear_id (y : Z) : 100 <= y -> fullYear y = y.
Proof.
  unfold fullYear. intros H.
  destruct (Z.leb_spec 0 y); destruct (Z.leb_spec y 99); cbn [andb]; lia.
Qed.

Lemma weekday_In (n : Z) :
  In (nth (Z.to_nat (JSDate.WeekDay n)) days []) days.
Proof.
  apply nth_In. pose proof (WeekDay_range n). cbn. lia.
Qed.

(** The date parser on the fields of a date that exists. *)
Lemma formatParts_valid (currentYear : Z) (date month day : jsstring)
    (more : list jsstring) (mi : nat) (dv yv : Z) :
  findMonthIndex month = Some mi ->
  parseInt (stripNonDigits day) = Some dv ->
  parseInt (stripNonDigits
              (match more with
               | year :: _ => year
               | [] => numberToString currentYear
               end)) = Some yv ->
  1 <= dv <= JSDate.DaysInMonth (fullYear yv) (Z.of_nat mi) ->
  fullYear yv <= 275759 ->
  formatParts currentYear date (Some month) (Some day) (nth_error more 0)
    = Ok (canonicalDate mi dv (fullYear yv)).
Proof.
  intros Hmonth Hday Hyear Hvalid Hmax.
  pose proof (findMonthIndex_bound _ _ Hmonth) as Hmi.
  pose proof (parseInt_nonneg _ _ Hyear) as Hy0.
  pose proof (fullYear_ge _ Hy0) as Hy100.
  assert (Hv : validDay (fullYear yv) (Z.of_nat mi) dv) by (split; lia).
  destruct (fields_of_MakeDay _ _ _ Hv) as (Hfy & _ & Hfd).
  pose proof (MakeDay_in_range _ _ _ Hv (conj Hy100 Hmax)) as Hrange.
  unfold formatParts.
  assert (Hyr : stripNonDigits
                  match nth_error more 0 with
                  | Some y => if truthy y then y else numberToString currentYear
                  | None => numberToString currentYear
                  end
                = stripNonDigits
                    match more with
                    | year :: _ => year
                    | [] => numberToString currentYear
                    end).
  { destruct more as [| year more]; [reflexivity |]. cbn [nth_error].
    destruct year; [discriminate Hyear | reflexivity]. }
  rewrite Hyr, Hmonth. cbn [option_map]. rewrite Hday, Hyear.
  unfold JSDate.newDate. fold (fullYear yv).
  apply Z.leb_le in Hrange. rewrite Hrange.
  unfold canonicalDate, dayName, JSDate.getDay, JSDate.getDate,
    JSDate.getFullYear, showNumber. cbn [option_map].
  rewrite Hfy, Hfd.
  rewrite (nth_indep days (lit "undefined") []); [reflexivity |].
  pose proof (WeekDay_range (JSDate.MakeDay (fullYear yv) (Z.of_nat mi) dv)).
  cbn. lia.
Qed.

Lemma formatDate_valid (currentYear : Z) (D : jsstring) (mi : nat) (d y : Z) :
  existsb isHyphen D = false ->
  readSingleDate currentYear D = Some (mi, d, y) ->
  1 <= d <= JSDate.DaysInMonth y (Z.of_nat mi) -> y <= 275759 ->
  formatDate currentYear D = Ok (canonicalDate mi d y).
Proof.
  intros Hh Hread Hd Hy.
  assert (Hs : D <> lit "mockValue").
  { intros ->. vm_compute in Hread. discriminate. }
  assert (Ht : truthy (trim D) = true).
  { apply dateTokens_truthy. unfold readSingleDate in Hread.
    destruct (dateTokens (trim D)); [discriminate | discriminate]. }
  rewrite formatDate_single by assumption.
  unfold parseSingleDate. unfold readSingleDate in Hread.
  destruct (dateTokens (trim D)) as [| p0 rest]; [discriminate |].
  destruct (includes days p0).
  - destruct rest as [| month [| day more]]; try discriminate.
    destruct (findMonthIndex month) as [mi' |] eqn:Hmonth; [| discriminate].
    destruct (parseInt (stripNonDigits day)) as [dv |] eqn:Hday; [| discriminate].
    destruct (parseInt (stripNonDigits
                          match more with
                          | year :: _ => year
                          | [] => numberToString currentYear
                          end)) as [yv |] eqn:Hyear; [| discriminate].
    injection Hread as -> -> <-.
    change (nth_error (p0 :: month :: day :: more) 1) with (Some month).
    change (nth_error (p0 :: month :: day :: more) 2) with (Some day).
    change (nth_error (p0 :: month :: day :: more) 3) with (nth_error more 0).
    now apply formatParts_valid.
  - destruct (includes months (slice03 p0)); [| discriminate].
    destruct rest as [| day more]; try discriminate.
    destruct (findMonthIndex p0) as [mi' |] eqn:Hmonth; [| discriminate].
    destruct (parseInt (stripNonDigits day)) as [dv |] eqn:Hday; [| discriminate].
    destruct (parseInt (stripNonDigits
                          match more with
                          | year :: _ => year
                          | [] => numberToString currentYear
                          end)) as [yv |] eqn:Hyear; [| discriminate].
    injection Hread as -> -> <-.
    change (nth_error (p0 :: day :: more) 0) with (Some p0).
    change (nth_error (p0 :: day :: more) 1) with (Some day).
    change (nth_error (p0 :: day :: more) 2) with (nth_error more 0).
    now apply formatParts_valid.
Qed.

(** The shape ["W, M d, y"]: four words, the first starting with a
    letter, the last made of digits. *)
Lemma canonical_shape (W M sd sy : jsstring) :
  forallb isWordChar W = true -> existsb isHyphen W = false ->
  (exists a t, W = a :: t /\ isWhiteSpace a = false) ->
  forallb isWordChar M = true -> existsb isHyphen M = false -> M <> [] ->
  forallb isDigit sd = true -> sd <> [] ->
  forallb isDigit sy = true -> sy <> [] ->
  let s := W ++ lit ", " ++ M ++ lit " " ++ sd ++ lit ", " ++ sy in
  existsb isHyphen s = false /\ trim s = s /\ dateTokens s = [W; M; sd; sy].
Proof.
  intros HWw HWh (a & t & HWeq & Ha) HMw HMh HMne Hdd Hdne Hyd Hyne.
  destruct (digits_words _ Hdd) as [Hdw Hdh].
  destruct (digits_words _ Hyd) as [Hyw Hyh].
  change (lit ", ") with [","%char; " "%char]. change (lit " ") with [" "%char].
  cbn [app]. split; [| split].
  - rewrite !existsb_isHyphen_app. cbn [existsb].
    rewrite !existsb_isHyphen_app. cbn [existsb].
    rewrite !existsb_isHyphen_app. cbn [existsb].
    now rewrite HWh, HMh, Hdh, Hyh.
  - destruct (exists_last Hyne) as (init & b & Hsy).
    assert (Hb : isWhiteSpace b = false).
    { apply isDigit_word. rewrite Hsy, forallb_app in Hyd.
      apply andb_prop in Hyd as [_ Hyd]. cbn in Hyd.
      now rewrite andb_true_r in Hyd. }
    rewrite Hsy, HWeq.
    replace ((a :: t) ++ ","%char :: " "%char :: M ++ " "%char :: sd
               ++ ","%char :: " "%char :: init ++ [b])
      with (a :: (t ++ ","%char :: " "%char :: M ++ " "%char :: sd
                    ++ ","%char :: " "%char :: init) ++ [b]).
    + now apply trim_id.
    + cbn [app]. f_equal. rewrite <- app_assoc. cbn [app]. do 3 f_equal.
      rewrite <- app_assoc. cbn [app]. do 2 f_equal.
      rewrite <- app_assoc. reflexivity.
  - rewrite dateTokens_word; [| assumption | rewrite HWeq; discriminate | reflexivity].
    rewrite dateTokens_sep by reflexivity.
    rewrite dateTokens_word; [| assumption | assumption | reflexivity].
    rewrite dateTokens_word; [| assumption | assumption | reflexivity].
    rewrite dateTokens_sep by reflexivity.
    now rewrite dateTokens_last.
Qed.

(** The canonical form of a date reads back as the same date. *)
Lemma canonicalDate_reads_back (currentYear : Z) (mi : nat) (d y : Z) :
  (mi < 12)%nat -> 1 <= d -> 100 <= y ->
  existsb isHyphen (canonicalDate mi d y) = false /\
  readSingleDate currentYear (canonicalDate mi d y) = Some (mi, d, y).
Proof.
  intros Hmi Hd Hy.
  pose proof (weekday_In (JSDate.MakeDay y (Z.of_nat mi) d)) as HW.
  destruct (days_words _ HW) as (HWw & HWh & HWa).
  destruct (months_words mi Hmi) as (HMw & HMh & HMne & HMi).
  destruct (numberToString_digits d) as [Hdd Hdv]; [lia |].
  destruct (numberToString_digits y) as [Hyd Hyv]; [lia |].
  pose proof (proj1 (truthy_iff _) (numberToString_truthy d)) as Hdne.
  pose proof (proj1 (truthy_iff _) (numberToString_truthy y)) as Hyne.
  destruct (canonical_shape _ _ _ _ HWw HWh HWa HMw HMh HMne Hdd Hdne Hyd Hyne)
    as (Hh & Htrim & Htok).
  fold (canonicalDate mi d y) in Hh, Htrim, Htok.
  split; [exact Hh |].
  unfold readSingleDate. rewrite Htrim, Htok.
  apply includes_In in HW. rewrite HW, HMi.
  rewrite !stripNonDigits_id by assumption.
  rewrite !parseInt_digits by assumption.
  rewrite Hdv, Hyv, fullYear_id by assumption. reflexivity.
Qed.

Lemma readSingleDate_bounds (currentYear : Z) (D : jsstring) (mi : nat) (d y : Z) :
  readSingleDate currentYear D = Some (mi, d, y) -> (mi < 12)%nat /\ 100 <= y.
Proof.
  unfold readSingleDate.
  assert (Hfields : forall fields,
             match fields with
             | Some (month :: day :: more) =>
                 match findMonthIndex month,
                       parseInt (stripNonDigits day),
                       parseInt (stripNonDigits
                                   match more with
                                   | year :: _ => year
                                   | [] => numberToString currentYear
                                   end) with
                 | Some mi, Some d, Some y => Some (mi, d, fullYear y)
                 | _, _, _ => None
                 end
             | _ => None
             end = Some (mi, d, y) -> (mi < 12)%nat /\ 100 <= y).
  { intros fields Hread.
    destruct fields as [fields |]; [| discriminate].
    destruct fields as [| month fields]; [discriminate |].
    destruct fields as [| day more]; [discriminate |].
    destruct (findMonthIndex month) as [mi' |] eqn:Hmonth; [| discriminate].
    destruct (parseInt (stripNonDigits day)) as [dv |] eqn:Hday; [| discriminate].
    destruct (parseInt (stripNonDigits
                          match more with
                          | year :: _ => year
                          | [] => numberToString currentYear
                          end)) as [yv |] eqn:Hyear; [| discriminate].
    injection Hread as -> -> <-. split.
    - eapply findMonthIndex_bound; eauto.
    - apply fullYear_ge. eapply parseInt_nonneg; eauto. }
  apply Hfields.
Qed.



(** A day that does not exist in its month is not a valid single date:
    [Date] carries it over into the next month while the output keeps
    the month that was written, and the result is no fixed point. *)
Remark formatDate_rolled_over_day (currentYear : Z) :
  validSingleDate currentYear (lit "Feb 30, 2024") = false /\
  formatDate currentYear (lit "Feb 30, 2024") = Ok (lit "Fri, Feb 1, 2024") /\
  formatDate currentYear (lit "Fri, Feb 1, 2024") = Ok (lit "Thu, Feb 1, 2024").
Proof. repeat split; vm_compute; reflexivity. Qed.

(** * Further properties *)

(** ** [formatDate]: exceptions, and the dates it reads *)

Lemma mapM_throws {A B : Type} (f : A -> result B) (l : list A) (e : error) :
  mapM f l = Throw e -> exists a, In a l /\ f a = Throw e.
Proof.
  induction l as [| a l IH]; cbn; [discriminate |].
  destruct (f a) as [b | e'] eqn:Ha; cbn.
  - destruct (mapM f l) as [bs | e'] eqn:Hl; cbn; [discriminate |].
    intros H. injection H as ->. destruct (IH eq_refl) as (x & Hx & Hfx).
    exists x. auto.
  - intros H. injection H as ->. exists a. auto.
Qed.

Lemma mapM_throws_at {A B : Type} (f : A -> result B) (l : list A) (a : A)
    (e : error) :
  In a l -> f a = Throw e -> exists e', mapM f l = Throw e'.
Proof.
  intros Hin Ha. destruct (mapM f l) as [bs |] eqn:Hl; [| eauto].
  exfalso. revert bs Hl. induction l as [| x l IH]; [contradiction |].
  cbn. intros bs. destruct (f x) as [b |] eqn:Hx; cbn; [| discriminate].
  destruct (mapM f l) as [bs' |] eqn:Hl'; cbn; [| discriminate].
  intros _. destruct Hin as [-> | Hin]; [congruence | eapply IH; eauto].
Qed.

Lemma parseSingleDate_outcome (currentYear : Z) (segment : jsstring) :
  (hasDateTokens segment = true /\
   exists out, parseSingleDate currentYear segment = Ok out) \/
  (hasDateTokens segment = false /\
   parseSingleDate currentYear segment = Throw TypeError).
Proof.
  destruct (hasDateTokens segment) eqn:H.
  - left. split; [reflexivity | now apply parseSingleDate_returns].
  - right. split; [reflexivity | now apply parseSingleDate_throws].
Qed.

(** X1.  [formatDate] throws exactly on the inputs that pass its two
    guards and have a hyphen-separated segment without a token or made
    of a weekday abbreviation alone; the exception is a [TypeError]. *)
Theorem formatDate_throws_iff (currentYear : Z) (s : jsstring) (e : error) :
  formatDate currentYear s = Throw e <->
  e = TypeError /\ truthy (trim s) = true /\ s <> lit "mockValue" /\
  forallb hasDateTokens (map trim (split "-"%char s)) = false.
Proof.
  split.
  - intros H.
    destruct (truthy (trim s)) eqn:Ht;
      [| unfold formatDate in H; rewrite Ht in H; discriminate].
    assert (Hs : s <> lit "mockValue").
    { intros ->. vm_compute in H. discriminate. }
    rewrite formatDate_past_guards in H by assumption.
    destruct (mapM (parseSingleDate currentYear) (map trim (split "-"%char s)))
      as [parts | e'] eqn:Hm; cbn in H.
    { destruct (List.length parts =? 2)%nat; [discriminate |].
      destruct parts; discriminate. }
    injection H as ->.
    apply mapM_throws in Hm as (seg & Hin & Hseg).
    destruct (parseSingleDate_outcome currentYear seg)
      as [(_ & out & Hout) | (Hno & Hthrow)]; [congruence |].
    repeat split; try assumption; [congruence |].
    destruct (forallb hasDateTokens (map trim (split "-"%char s))) eqn:Hall;
      [| reflexivity].
    rewrite forallb_forall in Hall. rewrite (Hall seg Hin) in Hno. discriminate.
  - intros (-> & Ht & Hs & Hall).
    rewrite formatDate_past_guards by assumption.
    assert (Hex : exists seg, In seg (map trim (split "-"%char s)) /\
                              hasDateTokens seg = false).
    { clear - Hall. induction (map trim (split "-"%char s)) as [| x l IH];
        [discriminate |].
      cbn in Hall. destruct (hasDateTokens x) eqn:Hx.
      - destruct (IH Hall) as (seg & Hin & Hseg). exists seg. split; [now right | auto].
      - exists x. split; [now left | auto]. }
    destruct Hex as (seg & Hin & Hseg).
    destruct (mapM_throws_at _ _ seg TypeError Hin
                (parseSingleDate_throws currentYear seg Hseg)) as (e' & He').
    rewrite He'. cbn. f_equal.
    apply mapM_throws in He' as (seg' & _ & Hseg').
    destruct (parseSingleDate_outcome currentYear seg')
      as [(_ & out & Hout) | (_ & Hthrow)]; congruence.
Qed.

(** ** Words and separators *)

Lemma isDateSep_not_hyphen (c : ascii) : isDateSep c = true -> isHyphen c = false.
Proof.
  intros H. destruct (isHyphen c) eqn:Hh; [| reflexivity].
  unfold isHyphen in Hh. apply Ascii.eqb_eq in Hh. subst c. discriminate H.
Qed.

Lemma dateTokens_seps (sep s : jsstring) :
  forallb isDateSep sep = true -> dateTokens (sep ++ s) = dateTokens s.
Proof.
  induction sep as [| c sep IH]; cbn [app forallb]; [reflexivity |].
  intros H. apply andb_prop in H as [Hc Hsep].
  rewrite dateTokens_sep by assumption. auto.
Qed.

Lemma isDateWord_parts (w : jsstring) :
  isDateWord w = true ->
  w <> [] /\ forallb isWordChar w = true /\ existsb isHyphen w = false.
Proof.
  unfold isDateWord. intros H.
  apply andb_prop in H as [H Hh]. apply andb_prop in H as [Ht Hw].
  apply negb_true_iff in Hh. apply truthy_iff in Ht. auto.
Qed.

Lemma isSepRun_parts (sep : jsstring) :
  isSepRun sep = true ->
  sep <> [] /\ forallb isDateSep sep = true /\ existsb isHyphen sep = false.
Proof.
  unfold isSepRun. intros H. apply andb_prop in H as [Ht Hs].
  apply truthy_iff in Ht. repeat split; try assumption.
  clear Ht. induction sep as [| c sep IH]; [reflexivity |].
  cbn in Hs |- *. apply andb_prop in Hs as [Hc Hs].
  now rewrite (isDateSep_not_hyphen c Hc), IH.
Qed.

Lemma last_app_nonempty {A : Type} (l l' : list A) (d : A) :
  l' <> [] -> last (l ++ l') d = last l' d.
Proof.
  intros Hne. induction l as [| x l IH]; [reflexivity |].
  cbn [app]. destruct (l ++ l') eqn:E.
  - apply app_eq_nil in E as [_ E]. contradiction.
  - exact IH.
Qed.

Lemma last_word_char (w : jsstring) (d : ascii) :
  w <> [] -> forallb isWordChar w = true -> isWordChar (last w d) = true.
Proof.
  intros Hne Hw. rewrite forallb_forall in Hw. apply Hw.
  destruct (exists_last Hne) as (init & b & ->).
  rewrite last_last. apply in_or_app. right. now left.
Qed.

Lemma trim_ends (s : jsstring) (d : ascii) :
  s <> [] -> isWhiteSpace (hd d s) = false -> isWhiteSpace (last s d) = false ->
  trim s = s.
Proof.
  intros Hne Hhd Hlast.
  destruct (exists_last Hne) as (init & b & ->).
  rewrite last_last in Hlast.
  destruct init as [| a init]; cbn in Hhd.
  - unfold trim. cbn. rewrite Hhd. cbn. now rewrite Hhd.
  - now apply trim_id.
Qed.

Lemma sentence_shape (rest : list (jsstring * jsstring)) :
  wellFormed rest ->
  forall w, isDateWord w = true ->
    dateTokens (sentence w rest) = w :: map snd rest /\
    existsb isHyphen (sentence w rest) = false /\
    sentence w rest <> [] /\
    isWhiteSpace (hd " "%char (sentence w rest)) = false /\
    isWhiteSpace (last (sentence w rest) " "%char) = false.
Proof.
  induction 1 as [| [sep w'] rest [Hsep Hw'] _ IH]; intros w Hw;
    destruct (isDateWord_parts w Hw) as (Hne & Hchars & Hh).
  - cbn [sentence map]. split; [now apply dateTokens_last |].
    split; [exact Hh |]. split; [exact Hne |]. split.
    + destruct w as [| a t]; [contradiction |]. cbn in Hchars |- *.
      apply andb_prop in Hchars as [Ha _]. now apply isWordChar_not_space.
    + apply isWordChar_not_space. now apply last_word_char.
  - cbn [fst snd] in Hsep, Hw'.
    destruct (isSepRun_parts sep Hsep) as (Hsne & Hseps & Hsh).
    destruct (IH w' Hw') as (Htok & Hhy & Hne' & _ & Hlast).
    cbn [sentence map snd].
    destruct sep as [| c sep]; [contradiction |].
    cbn in Hseps. apply andb_prop in Hseps as [Hc Hseps].
    split; [| split; [| split; [| split]]].
    + cbn [app]. rewrite dateTokens_word by assumption.
      now rewrite dateTokens_seps, Htok.
    + rewrite !existsb_isHyphen_app. now rewrite Hh, Hsh, Hhy.
    + destruct w; [contradiction | discriminate].
    + destruct w as [| a t]; [contradiction |]. cbn in Hchars |- *.
      apply andb_prop in Hchars as [Ha _]. now apply isWordChar_not_space.
    + rewrite !last_app_nonempty; auto.
      destruct (sentence w' rest); [contradiction | discriminate].
Qed.

Lemma sentence_trim (w : jsstring) (rest : list (jsstring * jsstring)) :
  wellFormed rest -> isDateWord w = true -> trim (sentence w rest) = sentence w rest.
Proof.
  intros Hrest Hw.
  destruct (sentence_shape rest Hrest w Hw) as (_ & _ & Hne & Hhd & Hlast).
  now apply (trim_ends _ " "%char).
Qed.

(** ** [formatDate] on the dates it reads *)

(** The text of an invalid [Date] under the month that was read. *)
Lemma formatParts_year (currentYear : Z) (more : list jsstring) :
  parseInt (stripNonDigits
              match more with
              | year :: _ => year
              | [] => numberToString currentYear
              end) <> None ->
  stripNonDigits
    match nth_error more 0 with
    | Some y => if truthy y then y else numberToString currentYear
    | None => numberToString currentYear
    end
  = stripNonDigits
      match more with
      | year :: _ => year
      | [] => numberToString currentYear
      end.
Proof.
  destruct more as [| year more]; [reflexivity |]. cbn [nth_error].
  destruct year; [intros H; now contradiction H | reflexivity].
Qed.

Lemma formatParts_rendered (currentYear : Z) (date month day : jsstring)
    (more : list jsstring) (mi : nat) (dv yv : Z) :
  findMonthIndex month = Some mi ->
  parseInt (stripNonDigits day) = Some dv ->
  parseInt (stripNonDigits
              (match more with
               | year :: _ => year
               | [] => numberToString currentYear
               end)) = Some yv ->
  Z.abs (JSDate.MakeDay (fullYear yv) (Z.of_nat mi) dv) <= JSDate.maxDay ->
  formatParts currentYear date (Some month) (Some day) (nth_error more 0)
    = Ok (renderedDate mi (JSDate.MakeDay (fullYear yv) (Z.of_nat mi) dv)).
Proof.
  intros Hmonth Hday Hyear Hrange.
  unfold formatParts.
  rewrite formatParts_year by (rewrite Hyear; discriminate).
  rewrite Hmonth. cbn [option_map]. rewrite Hday, Hyear.
  unfold JSDate.newDate. fold (fullYear yv).
  apply Z.leb_le in Hrange. rewrite Hrange.
  unfold renderedDate, dayName, JSDate.getDay, JSDate.getDate,
    JSDate.getFullYear, showNumber. cbn [option_map].
  rewrite (nth_indep days (lit "undefined") []); [reflexivity |].
  pose proof (WeekDay_range (JSDate.MakeDay (fullYear yv) (Z.of_nat mi) dv)).
  cbn. lia.
Qed.

Lemma formatDate_rendered (currentYear : Z) (D : jsstring) (mi : nat) (d y : Z) :
  existsb isHyphen D = false ->
  readSingleDate currentYear D = Some (mi, d, y) ->
  Z.abs (JSDate.MakeDay y (Z.of_nat mi) d) <= JSDate.maxDay ->
  formatDate currentYear D = Ok (renderedDate mi (JSDate.MakeDay y (Z.of_nat mi) d)).
Proof.
  intros Hh Hread Hrange.
  assert (Hs : D <> lit "mockValue").
  { intros ->. vm_compute in Hread. discriminate. }
  assert (Ht : truthy (trim D) = true).
  { apply dateTokens_truthy. unfold readSingleDate in Hread.
    destruct (dateTokens (trim D)); [discriminate | discriminate]. }
  rewrite formatDate_single by assumption.
  unfold parseSingleDate. unfold readSingleDate in Hread.
  destruct (dateTokens (trim D)) as [| p0 rest]; [discriminate |].
  destruct (includes days p0).
  - destruct rest as [| month [| day more]]; try discriminate.
    destruct (findMonthIndex month) as [mi' |] eqn:Hmonth; [| discriminate].
    destruct (parseInt (stripNonDigits day)) as [dv |] eqn:Hday; [| discriminate].
    destruct (parseInt (stripNonDigits
                          match more with
                          | year :: _ => year
                          | [] => numberToString currentYear
                          end)) as [yv |] eqn:Hyear; [| discriminate].
    injection Hread as -> -> <-.
    change (nth_error (p0 :: month :: day :: more) 1) with (Some month).
    change (nth_error (p0 :: month :: day :: more) 2) with (Some day).
    change (nth_error (p0 :: month :: day :: more) 3) with (nth_error more 0).
    now apply formatParts_rendered.
  - destruct (includes months (slice03 p0)); [| discriminate].
    destruct rest as [| day more]; try discriminate.
    destruct (findMonthIndex p0) as [mi' |] eqn:Hmonth; [| discriminate].
    destruct (parseInt (stripNonDigits day)) as [dv |] eqn:Hday; [| discriminate].
    destruct (parseInt (stripNonDigits
                          match more with
                          | year :: _ => year
                          | [] => numberToString currentYear
                          end)) as [yv |] eqn:Hyear; [| discriminate].
    injection Hread as -> -> <-.
    change (nth_error (p0 :: day :: more) 0) with (Some p0).
    change (nth_error (p0 :: day :: more) 1) with (Some day).
    change (nth_error (p0 :: day :: more) 2) with (nth_error more 0).
    now apply formatParts_rendered.
Qed.

(** A token that starts with a month abbreviation is no weekday and
    resolves to that month, whatever follows the three letters. *)
Lemma month_prefix (mi : nat) (suffix : jsstring) :
  (mi < 12)%nat ->
  includes days (nth mi months [] ++ suffix) = false /\
  includes months (slice03 (nth mi months [] ++ suffix)) = true /\
  findMonthIndex (nth mi months [] ++ suffix) = Some mi.
Proof.
  intros H.
  do 12 (destruct mi as [| mi]; [repeat split; vm_compute; reflexivity |]).
  lia.
Qed.

Lemma month_word (mi : nat) (suffix : jsstring) :
  (mi < 12)%nat ->
  forallb isWordChar suffix = true -> existsb isHyphen suffix = false ->
  isDateWord (nth mi months [] ++ suffix) = true.
Proof.
  intros Hmi Hw Hh. destruct (months_words mi Hmi) as (HMw & HMh & HMne & _).
  unfold isDateWord. rewrite forallb_app, existsb_app, HMw, HMh, Hw, Hh.
  destruct (nth mi months []); [contradiction | reflexivity].
Qed.

Lemma wellFormed_cons (sep w : jsstring) (rest : list (jsstring * jsstring)) :
  isSepRun sep = true -> isDateWord w = true -> wellFormed rest ->
  wellFormed ((sep, w) :: rest).
Proof. intros. constructor; auto. Qed.

(** The reading of a month-first date. *)
Lemma read_month_first (currentYear : Z) (mi : nat)
    (suffix sep dt : jsstring) (rest : list (jsstring * jsstring)) :
  (mi < 12)%nat ->
  forallb isWordChar suffix = true -> existsb isHyphen suffix = false ->
  wellFormed ((sep, dt) :: rest) ->
  let D := sentence (nth mi months [] ++ suffix) ((sep, dt) :: rest) in
  existsb isHyphen D = false /\
  readSingleDate currentYear D
    = match parseInt (stripNonDigits dt),
            parseInt (stripNonDigits
                        match map snd rest with
                        | year :: _ => year
                        | [] => numberToString currentYear
                        end) with
      | Some d, Some y => Some (mi, d, fullYear y)
      | _, _ => None
      end.
Proof.
  intros Hmi Hw Hh Hrest D.
  pose proof (month_word mi suffix Hmi Hw Hh) as HM.
  destruct (sentence_shape _ Hrest _ HM) as (Htok & Hhy & _).
  destruct (month_prefix mi suffix Hmi) as (Hd & Hm & Hi).
  split; [exact Hhy |].
  unfold readSingleDate. subst D.
  rewrite sentence_trim, Htok by assumption.
  rewrite Hd, Hm. cbn [map snd]. rewrite Hi. reflexivity.
Qed.







(** ** Days past the end of the month *)

Lemma MakeDay_next_month (y m d : Z) :
  0 <= m <= 11 ->
  JSDate.MakeDay y m d
  = JSDate.MakeDay (y + (m + 1) / 12) ((m + 1) mod 12)
      (d - JSDate.DaysInMonth y m).
Proof.
  intros Hm.
  assert (m = 11 \/ m < 11) as [-> | Hlt] by lia.
  - unfold JSDate.MakeDay, JSDate.DaysInMonth.
    change ((11 + 1) / 12) with 1. change ((11 + 1) mod 12) with 0.
    change (11 / 12) with 0. change (11 mod 12) with 11.
    change (11 =? 11) with true. cbv iota.
    change (0 / 12) with 0. change (0 mod 12) with 0.
    rewrite !Z.add_0_r, DayFromYear_succ. unfold JSDate.DaysInYear.
    destruct (JSDate.InLeapYear y), (JSDate.InLeapYear (y + 1));
      cbn [JSDate.monthStart]; lia.
  - unfold JSDate.MakeDay, JSDate.DaysInMonth.
    assert (Hq : m / 12 = 0) by (Z.div_mod_to_equations; lia).
    assert (Hr : m mod 12 = m) by (Z.div_mod_to_equations; lia).
    assert (Hq' : (m + 1) / 12 = 0) by (Z.div_mod_to_equations; lia).
    assert (Hr' : (m + 1) mod 12 = m + 1) by (Z.div_mod_to_equations; lia).
    repeat rewrite ?Hq, ?Hr, ?Hq', ?Hr', ?Z.add_0_r.
    destruct (Z.eqb_spec m 11); [lia |]. lia.
Qed.



(** ** More than two segments, and dates without a day *)

Lemma split_length_hyphen (r : jsstring) :
  existsb isHyphen r = true -> (2 <= List.length (split "-"%char r))%nat.
Proof.
  induction r as [| c r IH]; cbn [existsb split]; [discriminate |].
  unfold isHyphen at 1. destruct (Ascii.eqb c "-") eqn:Hc; cbn [orb].
  - intros _. pose proof (split_nonempty "-"%char r) as Hne.
    destruct (split "-"%char r); [contradiction | cbn; lia].
  - intros H. specialize (IH H).
    destruct (split "-"%char r); cbn in IH |- *; lia.
Qed.

(** X6.  Of an input with two hyphens or more only the first segment
    reaches the result; the other segments are parsed all the same, so
    that an exception on any of them is the outcome of the whole. *)
Theorem formatDate_many_segments (currentYear : Z) (a r : jsstring) :
  existsb isHyphen a = false -> existsb isHyphen r = true ->
  formatDate currentYear (a ++ lit "-" ++ r)
  = (x <- parseSingleDate currentYear (trim a) ;;
     _ <- mapM (parseSingleDate currentYear) (map trim (split "-"%char r)) ;;
     Ok x).
Proof.
  intros Ha Hr. change (lit "-" ++ r) with ("-"%char :: r).
  assert (Hin : In "-"%char (a ++ "-"%char :: r)).
  { apply in_or_app. right. now left. }
  rewrite formatDate_past_guards.
  - rewrite split_at_hyphen by assumption. cbn [map mapM].
    destruct (parseSingleDate currentYear (trim a)) as [x | e]; cbn [bind];
      [| reflexivity].
    destruct (mapM (parseSingleDate currentYear) (map trim (split "-"%char r)))
      as [bs | e] eqn:Hm; cbn [bind]; [| reflexivity].
    apply mapM_length in Hm. rewrite length_map in Hm.
    pose proof (split_length_hyphen r Hr) as Hlen.
    destruct bs as [| b1 [| b2 bs]]; cbn in Hm |- *; try lia; reflexivity.
  - apply (truthy_of_In "-"%char). now apply trim_keeps.
  - intros Heq. rewrite Heq in Hin. cbn in Hin.
    repeat (destruct Hin as [Hin | Hin]; [discriminate |]). exact Hin.
Qed.

(** X6 on a date range followed by a second hyphen. *)
Lemma formatDate_many_segments_witness :
  formatDate 2026 (lit "Jul 4, 2024 - Jul 5, 2024 - doors 7pm")
    = Ok (lit "Thu, Jul 4, 2024") /\
  formatDate 2026 (lit "Jul 4, 2024 - Jul 5, 2024 -") = Throw TypeError.
Proof.
  split.
  - change (lit "Jul 4, 2024 - Jul 5, 2024 - doors 7pm")
      with (lit "Jul 4, 2024 " ++ lit "-" ++ lit " Jul 5, 2024 - doors 7pm").
    rewrite (formatDate_many_segments 2026 (lit "Jul 4, 2024 ")
               (lit " Jul 5, 2024 - doors 7pm") eq_refl eq_refl).
    reflexivity.
  - change (lit "Jul 4, 2024 - Jul 5, 2024 -")
      with (lit "Jul 4, 2024 " ++ lit "-" ++ lit " Jul 5, 2024 -").
    rewrite (formatDate_many_segments 2026 (lit "Jul 4, 2024 ")
               (lit " Jul 5, 2024 -") eq_refl eq_refl).
    reflexivity.
Defined.

(** X7.  A text that starts with a word on a month abbreviation is taken
    for a date even without a day: when no token follows the word, or
    the token that follows has no digit, the invalid [Date] is written
    out as ["undefined, Mon NaN, NaN"], not the text that came in. *)
Theorem formatDate_month_without_day (currentYear : Z) (mi : nat)
    (suffix : jsstring) (rest : list (jsstring * jsstring)) :
  (mi < 12)%nat ->
  forallb isWordChar suffix = true -> existsb isHyphen suffix = false ->
  wellFormed rest ->
  match rest with
  | [] => True
  | (_, w) :: _ => stripNonDigits w = []
  end ->
  formatDate currentYear (sentence (nth mi months [] ++ suffix) rest)
  = Ok (lit "undefined, " ++ nth mi months [] ++ lit " NaN, NaN").
Proof.
  intros Hmi Hw Hh Hrest Hday.
  pose proof (month_word mi suffix Hmi Hw Hh) as HM.
  destruct (sentence_shape _ Hrest _ HM) as (Htok & Hhy & Hne & _).
  destruct (month_prefix mi suffix Hmi) as (Hd & Hm & Hi).
  rewrite formatDate_single.
  - rewrite sentence_trim by assumption.
    unfold parseSingleDate. rewrite Htok, Hd, Hm.
    cbn [nth_error]. unfold formatParts. rewrite Hi.
    assert (Hinvalid : forall yr,
               JSDate.newDate yr (Z.of_nat mi)
                 match option_map stripNonDigits (nth_error (map snd rest) 0) with
                 | Some d => parseInt d
                 | None => None
                 end = None).
    { intros yr. destruct rest as [| [sep w] rest']; cbn [map snd nth_error option_map].
      - destruct yr; reflexivity.
      - rewrite Hday. destruct yr; reflexivity. }
    rewrite Hinvalid. reflexivity.
  - exact Hhy.
  - apply truthy_iff. now rewrite sentence_trim.
  - intros Heq. remember (nth mi months [] ++ suffix) as M' eqn:HM'.
    rewrite Heq in Htok.
    change (dateTokens (lit "mockValue")) with [lit "mockValue"] in Htok.
    assert (HeqM : M' = lit "mockValue") by congruence.
    rewrite HeqM in Hm. discriminate Hm.
Qed.

(** X7 on three texts that are no dates. *)
Lemma formatDate_month_without_day_witness :
  formatDate 2026 (lit "May be later") = Ok (lit "undefined, May NaN, NaN") /\
  formatDate 2026 (lit "Marching band") = Ok (lit "undefined, Mar NaN, NaN") /\
  formatDate 2026 (lit "Decoration") = Ok (lit "undefined, Dec NaN, NaN").
Proof.
  split; [| split].
  - apply (formatDate_month_without_day 2026 4 []
             [(lit " ", lit "be"); (lit " ", lit "later")]);
      try reflexivity; [lia | repeat constructor].
  - apply (formatDate_month_without_day 2026 2 (lit "ching")
             [(lit " ", lit "band")]);
      try reflexivity; [lia | repeat constructor].
  - apply (formatDate_month_without_day 2026 11 (lit "oration") []).
    + lia.
    + reflexivity.
    + reflexivity.
    + constructor.
    + exact I.
Defined.

(** ** [trim] *)

Lemma dropWhile_suffix (p : ascii -> bool) (s : jsstring) :
  exists pre, s = pre ++ dropWhile p s.
Proof.
  induction s as [| c s (pre & IH)]; cbn; [exists []; reflexivity |].
  destruct (p c).
  - exists (c :: pre). cbn. now f_equal.
  - exists []. reflexivity.
Qed.

Lemma dropWhile_head (p : ascii -> bool) (s : jsstring) (a : ascii) (t : jsstring) :
  dropWhile p s = a :: t -> p a = false.
Proof.
  induction s as [| c s IH]; cbn; [discriminate |].
  destruct (p c) eqn:Hc; [exact IH |].
  intros H. injection H as <- _. exact Hc.
Qed.

(** The trimmed string is a piece of the string. *)
Lemma trim_inside (s : jsstring) : exists pre post, s = pre ++ trim s ++ post.
Proof.
  unfold trim.
  destruct (dropWhile_suffix isWhiteSpace s) as (pre & Hs).
  destruct (dropWhile_suffix isWhiteSpace (rev (dropWhile isWhiteSpace s)))
    as (pre2 & Hr).
  exists pre, (rev pre2).
  rewrite <- rev_app_distr, <- Hr, rev_involutive. exact Hs.
Qed.

(** It neither starts nor ends with white space. *)
Lemma trim_no_space_ends (s : jsstring) (d : ascii) :
  trim s = [] \/
  (isWhiteSpace (hd d (trim s)) = false /\
   isWhiteSpace (last (trim s) d) = false).
Proof.
  unfold trim.
  destruct (dropWhile isWhiteSpace s) as [| a t] eqn:Ht; [now left |].
  pose proof (dropWhile_head _ _ _ _ Ht) as Ha.
  destruct (dropWhile_suffix isWhiteSpace (rev (a :: t))) as (pre2 & Hr).
  destruct (dropWhile isWhiteSpace (rev (a :: t))) as [| b u] eqn:Hu;
    [now left |].
  pose proof (dropWhile_head _ _ _ _ Hu) as Hb.
  right. split.
  - assert (Hlast : last (b :: u) d = a).
    { rewrite <- (last_app_nonempty pre2 (b :: u) d) by discriminate.
      rewrite <- Hr. cbn [rev]. apply last_last. }
    destruct (exists_last (l := b :: u)) as (init & z & Hz); [discriminate |].
    rewrite Hz in Hlast |- *. rewrite last_last in Hlast. subst z.
    rewrite rev_unit. exact Ha.
  - cbn [rev]. now rewrite last_last.
Qed.

Lemma trim_trim (s : jsstring) : trim (trim s) = trim s.
Proof.
  destruct (trim_no_space_ends s " "%char) as [-> | [Hhd Hlast]];
    [reflexivity |].
  destruct (trim s) eqn:E; [reflexivity |].
  rewrite <- E in *. apply (trim_ends _ " "%char); try assumption.
  rewrite E. discriminate.
Qed.

(** ** The stored price is stable *)

Lemma contains_inside (needle pre s post : jsstring) :
  contains needle s = true -> contains needle (pre ++ s ++ post) = true.
Proof.
  rewrite !contains_iff. intros (a & b & ->).
  exists (pre ++ a), (b ++ post). now rewrite <- !app_assoc.
Qed.

Lemma occursAt_inside (m pre s post : jsstring) (i : nat) :
  occursAt m s i -> occursAt m (pre ++ s ++ post) (List.length pre + i).
Proof.
  intros (a & b & -> & Hlen).
  exists (pre ++ a), (b ++ post). rewrite <- !app_assoc, length_app.
  split; [reflexivity | lia].
Qed.

Lemma lowerChar_s (c : ascii) :
  lowerChar c = "s"%char ->
  isDigit c = false /\ c <> "$"%char /\ c <> "."%char.
Proof.
  destruct c as [[] [] [] [] [] [] [] []]; intros H; try discriminate H;
    repeat split; discriminate.
Qed.

Lemma isPriceToken_chars (m : jsstring) (c : ascii) :
  isPriceToken m -> In c m ->
  isDigit c = true \/ c = "$"%char \/ c = "."%char.
Proof.
  intros (ds & frac & -> & _ & Hds & Hfrac) Hin.
  destruct Hin as [<- | Hin]; [auto |].
  apply in_app_or in Hin as [Hin | Hin].
  - left. rewrite forallb_forall in Hds. auto.
  - destruct Hfrac as [-> | (a & b & -> & Ha & Hb)]; [contradiction |].
    destruct Hin as [<- | [<- | [<- | []]]]; auto.
Qed.

Lemma isPriceToken_not_sold_out (m : jsstring) :
  isPriceToken m -> contains (lit "sold out") (toLowerCase m) = false.
Proof.
  intros Htok. destruct (contains (lit "sold out") (toLowerCase m)) eqn:Hc;
    [| reflexivity].
  exfalso. apply contains_iff in Hc as (pre & post & Hc).
  assert (Hin : In "s"%char (toLowerCase m)).
  { rewrite Hc. apply in_or_app. right. now left. }
  unfold toLowerCase in Hin. apply in_map_iff in Hin as (c & Hlow & Hin).
  destruct (lowerChar_s c Hlow) as (Hd & Hdollar & Hdot).
  destruct (isPriceToken_chars m c Htok Hin) as [H | [H | H]]; congruence.
Qed.

Lemma matchPriceHere_token (m : jsstring) :
  isPriceToken m -> matchPriceHere m = Some m.
Proof.
  intros (ds & frac & -> & Hne & Hds & Hfrac).
  cbn [matchPriceHere]. change (Ascii.eqb "$" "$") with true. cbv iota.
  assert (Htake : takeWhile isDigit (ds ++ frac) = ds).
  { rewrite takeWhile_app by assumption.
    destruct Hfrac as [-> | (a & b & -> & _)]; cbn; now rewrite app_nil_r. }
  assert (Hdrop : dropWhile isDigit (ds ++ frac) = frac).
  { rewrite dropWhile_app by assumption.
    destruct Hfrac as [-> | (a & b & -> & _)]; reflexivity. }
  rewrite Htake, Hdrop.
  destruct ds as [| d0 ds0]; [contradiction |].
  destruct Hfrac as [-> | (a & b & -> & Ha & Hb)].
  - reflexivity.
  - change (Ascii.eqb "." ".") with true. now rewrite Ha, Hb.
Qed.

Lemma isPriceToken_trimmed (m : jsstring) : isPriceToken m -> trim m = m.
Proof.
  intros Htok. pose proof Htok as (ds & frac & -> & Hne & Hds & Hfrac).
  apply (trim_ends _ " "%char); [discriminate | reflexivity |].
  assert (Hlast : In (last ("$"%char :: ds ++ frac) " "%char)
                    ("$"%char :: ds ++ frac)).
  { destruct (exists_last (l := "$"%char :: ds ++ frac)) as (init & z & Hz);
      [discriminate |].
    rewrite Hz, last_last. apply in_or_app. right. now left. }
  assert (Hnotdollar : last ("$"%char :: ds ++ frac) " "%char
                       = last (ds ++ frac) " "%char).
  { destruct ds; [contradiction | reflexivity]. }
  destruct Hfrac as [-> | (a & b & -> & Ha & Hb)].
  - rewrite Hnotdollar, app_nil_r. apply isDigit_word.
    rewrite forallb_forall in Hds. apply Hds.
    destruct (exists_last Hne) as (init & z & ->).
    rewrite last_last. apply in_or_app. right. now left.
  - rewrite Hnotdollar.
    change (ds ++ ["."%char; a; b]) with (ds ++ ["."%char; a] ++ [b]).
    rewrite app_assoc, last_last. now apply isDigit_word.
Qed.

(** X8.  The stored price carries no surrounding white space and is a
    fixed point of the rule that produced it. *)
Theorem priceOf_stable (text : jsstring) :
  trim (priceOf text) = priceOf text /\
  priceOf (priceOf text) = priceOf text.
Proof.
  assert (Hcases :
            priceOf text = lit "SOLD OUT" \/
            (exists m, isPriceToken m /\ priceOf text = m) \/
            (priceOf text = trim text /\
             contains (lit "sold out") (toLowerCase text) = false /\
             matchPrice text = None)).
  { unfold priceOf.
    destruct (contains (lit "sold out") (toLowerCase text)); [now left |].
    right. destruct (matchPrice text) as [m |] eqn:Hm; [left | right; auto].
    destruct (matchPrice_Some _ _ Hm) as (i & _ & Htok & _).
    exists m. now rewrite (isPriceToken_truthy _ Htok). }
  destruct Hcases as [-> | [(m & Htok & ->) | (-> & Hsold & Hm)]].
  - split; reflexivity.
  - split; [now apply isPriceToken_trimmed |].
    unfold priceOf. rewrite isPriceToken_not_sold_out by assumption.
    rewrite matchPrice_unfold, matchPriceHere_token by assumption.
    now rewrite (isPriceToken_truthy _ Htok).
  - split; [apply trim_trim |].
    destruct (trim_inside text) as (pre & post & Htext).
    unfold priceOf.
    destruct (contains (lit "sold out") (toLowerCase (trim text))) eqn:Hc.
    { exfalso. unfold toLowerCase in *.
      apply (contains_inside _ (map lowerChar pre) _ (map lowerChar post)) in Hc.
      rewrite <- !map_app, <- Htext in Hc. congruence. }
    destruct (matchPrice (trim text)) as [m |] eqn:Hm'.
    { exfalso. destruct (matchPrice_Some _ _ Hm') as (i & Hocc & Htok & _).
      apply (occursAt_inside _ pre _ post) in Hocc. rewrite <- Htext in Hocc.
      exact (matchPrice_None _ Hm m _ Htok Hocc). }
    apply trim_trim.
Qed.

(** ** [scrapeEvents]: the records of a page *)

Lemma key_eqb_eq (a b : SelectorKey) : key_eqb a b = true <-> a = b.
Proof.
  unfold key_eqb. destruct (SelectorKey_eq_dec a b); split; congruence.
Qed.

Lemma selectorFor_perm (l l' : SelectorSet) :
  Permutation l l' -> NoDup (map fst l) ->
  forall key, selectorFor key l = selectorFor key l'.
Proof.
  induction 1 as [| [k v] l l' Hperm IH | [k1 v1] [k2 v2] l | l l' l'' H1 IH1 H2 IH2];
    intros Hnodup key.
  - reflexivity.
  - cbn in Hnodup |- *. inversion Hnodup; subst.
    destruct (key_eqb k key); [reflexivity | auto].
  - cbn in Hnodup |- *. inversion Hnodup as [| ? ? Hnot _]; subst.
    destruct (key_eqb k2 key) eqn:E2, (key_eqb k1 key) eqn:E1; try reflexivity.
    apply key_eqb_eq in E1, E2. subst. exfalso. apply Hnot. now left.
  - rewrite IH1 by assumption. apply IH2.
    eapply Permutation_NoDup; [| exact Hnodup].
    now apply Permutation_map.
Qed.

(** X9.  The order of the properties of the selector object has no
    effect on the record of a block, nor on whether the block throws. *)
Theorem scrapeBlock_entry_order (host : Host) (element : ElementHandle)
    (venueName websiteKey : jsstring) (selectors selectors' : SelectorSet) :
  Permutation selectors selectors' -> NoDup (map fst selectors) ->
  scrapeBlock host element venueName selectors websiteKey
  = scrapeBlock host element venueName selectors' websiteKey.
Proof.
  intros Hperm Hnodup.
  assert (Hnodup' : NoDup (map fst selectors')).
  { eapply Permutation_NoDup; [| exact Hnodup]. now apply Permutation_map. }
  unfold scrapeBlock. rewrite !forEntries_merged by assumption.
  unfold merged, dateValue, venueValue, priceValue, linkValue.
  now rewrite !(selectorFor_perm _ _ Hperm Hnodup).
Qed.

(** X9 on the SNS selectors written in another order. *)
Lemma scrapeBlock_entry_order_witness :
  scrapeBlock (exampleHost 2026) exampleBlock (lit "SNS Presents")
    snsSelectors (lit "snspresents")
  = scrapeBlock (exampleHost 2026) exampleBlock (lit "SNS Presents")
      [ (Kdate, Some (lit ".tix__date"));
        (Kvenue, Some (lit ".tix__venue"));
        (Kprice, Some (lit ".tix__widget--footer"));
        (Kevent, Some (lit ".tix__title--headliner"));
        (KticketLink, Some (lit ".tix__widget--footer a")) ]
      (lit "snspresents").
Proof.
  apply scrapeBlock_entry_order.
  - unfold snsSelectors.
    apply Permutation_sym, (Permutation_cons_app [_; _; _] [_]).
    apply Permutation_refl.
  - cbn. repeat constructor; cbn; intuition discriminate.
Defined.

Lemma scrapeBlock_record (host : Host) (element : ElementHandle)
    (venueName websiteKey : jsstring) (selectors : SelectorSet) (record : Event) :
  NoDup (map fst selectors) ->
  scrapeBlock host element venueName selectors websiteKey = Ok record ->
  exists d,
    dateValue host element selectors = Ok d /\
    record = mkEvent (Some websiteKey)
               (venueValue element venueName selectors)
               (priceValue element selectors)
               (Some (join (lit " ")
                        (eventTitle host
                           (textFor element selectors Kpretitle)
                           (textFor element selectors Kevent)
                           (textFor element selectors Ksubtitle))))
               d
               (linkValue host element selectors).
Proof.
  intros Hnodup. unfold scrapeBlock. rewrite forEntries_merged by assumption.
  destruct (dateValue host element selectors) as [d | e]; [| discriminate].
  cbn. intros H. injection H as <-. exists d. split; [reflexivity |].
  unfold textFor, orElse.
  destruct (venueValue element venueName selectors),
           (priceValue element selectors),
           (linkValue host element selectors), d; reflexivity.
Qed.



Lemma priceOf_empty (text : jsstring) : priceOf text <> [] -> text <> [].
Proof. intros H ->. now apply H. Qed.

Lemma formatDate_empty (currentYear : Z) (text d : jsstring) :
  formatDate currentYear text = Ok d -> d <> [] -> text <> [].
Proof. intros H Hd ->. cbn in H. injection H as <-. now apply Hd. Qed.

Lemma textAt_found (element : ElementHandle) (selector : jsstring) :
  textAt element selector <> [] -> element selector <> None.
Proof. unfold textAt. destruct (element selector); congruence. Qed.

(** X11.  A record that the output cleaning keeps comes from a block in
    which the price selector and the date selector each found an element
    with a text, and in which the presenter, the main artist or the
    supporting acts had a text: a block where one of these is missing
    gives a record that is not written. *)
Theorem kept_record_was_found (host : Host) (element : ElementHandle)
    (venueName websiteKey : jsstring) (selectors : SelectorSet) (record : Event) :
  NoDup (map fst selectors) ->
  scrapeBlock host element venueName selectors websiteKey = Ok record ->
  isComplete record = true ->
  (exists selector,
      selectorFor Kprice selectors = Some selector /\
      element selector <> None /\ textAt element selector <> []) /\
  (exists selector,
      selectorFor Kdate selectors = Some selector /\
      element selector <> None /\ textAt element selector <> []) /\
  (textFor element selectors Kpretitle <> [] \/
   textFor element selectors Kevent <> [] \/
   textFor element selectors Ksubtitle <> []).
Proof.
  intros Hnodup Hrec Hkept.
  destruct (scrapeBlock_record _ _ _ _ _ _ Hnodup Hrec) as (d & Hd & ->).
  unfold isComplete in Hkept. cbn [website venue price event date ticketLink] in Hkept.
  repeat (apply andb_prop in Hkept; destruct Hkept as [Hkept ?]).
  split; [| split].
  - unfold priceValue in *.
    destruct (selectorFor Kprice selectors) as [selector |]; [| discriminate].
    exists selector. cbn in *.
    assert (Ht : textAt element selector <> []).
    { apply priceOf_empty. now apply truthy_iff. }
    repeat split; [now apply textAt_found | exact Ht].
  - unfold dateValue in Hd.
    destruct (selectorFor Kdate selectors) as [selector |];
      [| injection Hd as <-; discriminate].
    exists selector.
    destruct (formatDate (currentYear host) (textAt element selector))
      as [d' |] eqn:Hfmt; [| discriminate].
    cbn in Hd. injection Hd as <-. cbn in *.
    assert (Ht : textAt element selector <> []).
    { eapply formatDate_empty; [exact Hfmt | now apply truthy_iff]. }
    repeat split; [now apply textAt_found | exact Ht].
  - cbn [truthyField] in *.
    destruct (textFor element selectors Kpretitle) eqn:Hp;
      [| left; discriminate].
    destruct (textFor element selectors Kevent) eqn:He;
      [| right; left; discriminate].
    destruct (textFor element selectors Ksubtitle) eqn:Hs;
      [| right; right; discriminate].
    discriminate.
Qed.

(** X11 on the example block, whose record is kept. *)
Lemma kept_record_was_found_witness :
  exists selector,
    selectorFor Kprice stateroomSelectors = Some selector /\
    exampleBlock selector <> None /\ textAt exampleBlock selector <> [].
Proof.
  assert (Hnodup : NoDup (map fst stateroomSelectors)).
  { cbn. repeat constructor; cbn; intuition discriminate. }
  eapply (kept_record_was_found (exampleHost 2026) exampleBlock
            (lit "The State Room") (lit "stateroom") stateroomSelectors _ Hnodup).
  - vm_compute. reflexivity.
  - reflexivity.
Defined.

Lemma mapM_Forall2 {A B : Type} (f : A -> result B) (l : list A) (bs : list B) :
  mapM f l = Ok bs <-> Forall2 (fun a b => f a = Ok b) l bs.
Proof.
  revert bs. induction l as [| a l IH]; intros bs; cbn.
  - split.
    + intros H. injection H as <-. constructor.
    + intros H. inversion H. reflexivity.
  - split.
    + destruct (f a) as [b | e] eqn:Ha; cbn; [| discriminate].
      destruct (mapM f l) as [bs' | e] eqn:Hl; cbn; [| discriminate].
      intros H. injection H as <-. constructor; [exact Ha | now apply IH].
    + intros H. inversion H as [| ? b ? bs' Ha Hl]; subst.
      rewrite Ha. cbn. apply IH in Hl. rewrite Hl. reflexivity.
Qed.

(** X12.  [scrapeEvents] gives the records of the blocks of the page in
    the order of the blocks, one for each block; a page without a block
    gives no record; and one block that throws makes the whole page
    throw, the records of the other blocks being lost. *)
Theorem scrapeEvents_blocks (host : Host) (page : Page) (selectors : SelectorSet)
    (eventListSelector websiteKey venueName : jsstring) :
  (forall records,
      scrapeEvents host page selectors eventListSelector websiteKey venueName
        = Ok records <->
      Forall2 (fun element record =>
                 scrapeBlock host element venueName selectors websiteKey
                   = Ok record)
        (page eventListSelector) records) /\
  (page eventListSelector = [] ->
   scrapeEvents host page selectors eventListSelector websiteKey venueName
     = Ok []) /\
  (forall element e,
      In element (page eventListSelector) ->
      scrapeBlock host element venueName selectors websiteKey = Throw e ->
      exists e',
        scrapeEvents host page selectors eventListSelector websiteKey venueName
          = Throw e').
Proof.
  unfold scrapeEvents. split; [| split].
  - intros records. apply mapM_Forall2.
  - intros ->. reflexivity.
  - intros element e Hin Hthrow.
    eapply mapM_throws_at; [exact Hin | exact Hthrow].
Qed.

(** X12 on a page of two blocks, then with a third block whose date is
    an open range. *)
Lemma scrapeEvents_blocks_witness :
  (exists r1 r2,
      scrapeEvents (exampleHost 2026) (fun _ => [exampleBlock; fun _ => None])
        stateroomSelectors (lit ".row") (lit "stateroom") (lit "The State Room")
      = Ok [r1; r2]) /\
  (exists e,
      scrapeEvents (exampleHost 2026)
        (fun _ => [exampleBlock; fun _ => None;
                   fun _ => Some {| textContent := Some (lit "Jul 4 -");
                                    href := [] |}])
        stateroomSelectors (lit ".row") (lit "stateroom") (lit "The State Room")
      = Throw e).
Proof.
  split.
  - eexists _, _.
    apply (proj1 (scrapeEvents_blocks (exampleHost 2026)
                    (fun _ => [exampleBlock; fun _ => None])
                    stateroomSelectors (lit ".row") (lit "stateroom")
                    (lit "The State Room"))).
    repeat constructor; vm_compute; reflexivity.
  - eapply (proj2 (proj2 (scrapeEvents_blocks (exampleHost 2026) _
                            stateroomSelectors (lit ".row") (lit "stateroom")
                            (lit "The State Room")))).
    + right. right. left. reflexivity.
    + vm_compute. reflexivity.
Defined.

(** ** [saveToJson]: saving what was saved *)

Lemma filter_isComplete_again (data : list Event) :
  filter isComplete (filter isComplete data) = filter isComplete data.
Proof.
  induction data as [| e data IH]; cbn; [reflexivity |].
  destruct (isComplete e) eqn:He; cbn; [rewrite He; now f_equal | exact IH].
Qed.

(** X13.  The array [saveToJson] writes is never longer than the input,
    it is as long only when nothing was dropped, and saving it again
    writes the same array. *)
Theorem saveToJson_again (data : list Event) (filename filename' : jsstring) :
  exists out,
    writtenArray (saveToJson data filename) = Some out /\
    (List.length out <= List.length data)%nat /\
    (List.length out = List.length data -> out = data) /\
    writtenArray (saveToJson out filename') = Some out.
Proof.
  exists (filter isComplete data). cbn.
  split; [reflexivity |]. split; [apply filter_length_le |].
  split; [| now rewrite filter_isComplete_again].
  induction data as [| e data IH]; cbn; [reflexivity |].
  pose proof (filter_length_le isComplete data) as Hle.
  destruct (isComplete e); cbn; intros Hlen; [f_equal; apply IH; lia | lia].
Qed.

(** ** [scrapeWebsite] *)

Section Website.

Variable host : Host.
Variable generateObject : jsstring -> result GenerateObjectResult.

Lemma getSelectorsFromLLM_resolved (html : jsstring) (defaults : SelectorSet) :
  getSelectorsFromLLM generateObject html defaults
  = Ok (resolvedSelectors generateObject html defaults).
Proof.
  unfold getSelectorsFromLLM, resolvedSelectors.
  destruct (generateObject (selectorPrompt html)); reflexivity.
Qed.

(** The page part of a scrape: the calls up to the first failure, and
    then the records of the page under the resolved selectors. *)
Lemma scrapePage_calls (session : Session) (config : WebsiteConfig.t)
    (websiteKey : jsstring) :
  scrapePage host generateObject session config websiteKey
  = match untilFailure (navigation session config) with
    | (done, Some e) => (done, Throw e)
    | (done, None) =>
        (done,
         match innerHTML session (WebsiteConfig.eventSectionSelector config) with
         | Ok html =>
             scrapeEvents host (content session)
               (resolvedSelectors generateObject html
                  (WebsiteConfig.defaultSelectors config))
               (WebsiteConfig.eventListSelector config) websiteKey
               (WebsiteConfig.venue config)
         | Throw e => Throw e
         end)
    end.
Proof.
  unfold scrapePage, navigation, perform, ioRet, ioBind, forget.
  destruct (goto session (WebsiteConfig.url config)) as [[] | e];
    cbn; [| reflexivity].
  assert (Htail :
            forall P : Prop,
              (forall u, waitForSelector session
                           (WebsiteConfig.eventListSelector config) = u -> P) -> P)
    by eauto.
  destruct (WebsiteConfig.upcomingEventsSelector config) as [selector |];
    [destruct (truthy selector);
     [destruct (waitForSelector session selector) as [[] | e];
      cbn; [| reflexivity] |] |];
    (destruct (waitForSelector session (WebsiteConfig.eventListSelector config))
       as [[] | e]; cbn; [| reflexivity];
     destruct (innerHTML session (WebsiteConfig.eventSectionSelector config))
       as [html | e]; cbn; [| reflexivity];
     rewrite getSelectorsFromLLM_resolved; reflexivity).
Qed.

Lemma untilFailure_no_close (calls : list (action * result unit)) :
  forallb (fun call => negb (isClose (fst call))) calls = true ->
  existsb isClose (fst (untilFailure calls)) = false.
Proof.
  induction calls as [| [a [[] | e]] calls IH]; cbn; [reflexivity | |].
  - intros H. apply andb_prop in H as [Ha Hrest].
    specialize (IH Hrest). destruct (untilFailure calls). cbn in *.
    apply negb_true_iff in Ha. now rewrite Ha.
  - intros H. apply andb_prop in H as [Ha _].
    apply negb_true_iff in Ha. now rewrite Ha.
Qed.

Lemma navigation_no_close (session : Session) (config : WebsiteConfig.t) :
  existsb isClose (fst (untilFailure (navigation session config))) = false.
Proof.
  apply untilFailure_no_close. unfold navigation.
  destruct (WebsiteConfig.upcomingEventsSelector config) as [selector |];
    [destruct (truthy selector) |]; reflexivity.
Qed.

(** X14.  The browser is closed exactly once, as the last thing the
    scrape of a site does, whenever the page was created, whether the
    scrape returns or throws; an exception of the closing takes the
    place of the outcome.  When the launch fails, or the creation of the
    page does, nothing is closed: after a launch that succeeded the
    browser is then left open. *)
Theorem scrapeWebsite_closes (session : Session) (config : WebsiteConfig.t)
    (websiteKey : jsstring) :
  let run := scrapeWebsite host generateObject session config websiteKey in
  let log := Output (ConsoleLog (lit "Scraping " ++ WebsiteConfig.url config)) in
  (forall e, launch session = Throw e -> run = ([log; Launch], Throw e)) /\
  (forall e,
      launch session = Ok tt -> newPage session = Throw e ->
      run = ([log; Launch; NewPage], Throw e)) /\
  (launch session = Ok tt -> newPage session = Ok tt ->
   exists done,
     fst run = done ++ [Close] /\
     existsb isClose done = false /\
     snd run = match close session with
               | Ok _ =>
                   snd (scrapePage host generateObject session config websiteKey)
               | Throw e => Throw e
               end).
Proof.
  intros run log. subst run log.
  unfold scrapeWebsite, perform, ioBind, tryFinally.
  split; [| split].
  - intros e ->. reflexivity.
  - intros e -> ->. reflexivity.
  - intros -> ->.
    pose proof (navigation_no_close session config) as Hnc.
    destruct (scrapePage host generateObject session config websiteKey)
      as [done r] eqn:Hpage.
    rewrite scrapePage_calls in Hpage.
    destruct (untilFailure (navigation session config)) as [calls failure].
    cbn [fst] in Hnc.
    assert (Hdone : done = calls).
    { destruct failure; injection Hpage as -> _; reflexivity. }
    subst done.
    exists (Output (ConsoleLog (lit "Scraping " ++ WebsiteConfig.url config))
              :: Launch :: NewPage :: calls).
    destruct (close session) as [[] | e]; cbn [fst snd app];
      rewrite ?app_nil_r; cbn [existsb isClose orb]; auto.
Qed.

(** X15.  Between the creation of the page and its closing the scrape
    goes to the address of the site, waits for the upcoming-events
    marker when the site has one, waits for the event list and reads the
    markup of the events section, in this order; the first of these
    calls that fails ends the scrape with its exception, none of the
    later calls being made. *)
Theorem scrapeWebsite_navigation (session : Session) (config : WebsiteConfig.t)
    (websiteKey : jsstring) :
  launch session = Ok tt -> newPage session = Ok tt ->
  let run := scrapeWebsite host generateObject session config websiteKey in
  fst run
  = [Output (ConsoleLog (lit "Scraping " ++ WebsiteConfig.url config));
     Launch; NewPage]
    ++ fst (untilFailure (navigation session config)) ++ [Close] /\
  (forall e,
      snd (untilFailure (navigation session config)) = Some e ->
      close session = Ok tt ->
      snd run = Throw e).
Proof.
  intros Hl Hn run. subst run.
  unfold scrapeWebsite, perform, ioBind, tryFinally.
  rewrite Hl, Hn, scrapePage_calls.
  destruct (untilFailure (navigation session config)) as [calls failure].
  destruct failure as [e0 |]; destruct (close session) as [[] | e1];
    cbn [fst snd app]; rewrite ?app_nil_r;
    (split; [reflexivity |]); intros e He Hc; congruence.
Qed.

(** X16.  When every call on the driver succeeds the scrape of a site
    returns what [scrapeEvents] gives on the page for the selectors of
    the completion service, and for the default selectors of the site
    when the service fails: a failure of the service never fails the
    scrape. *)
Theorem scrapeWebsite_scrapes (session : Session) (config : WebsiteConfig.t)
    (websiteKey html : jsstring) :
  launch session = Ok tt -> newPage session = Ok tt ->
  goto session (WebsiteConfig.url config) = Ok tt ->
  (forall selector,
      WebsiteConfig.upcomingEventsSelector config = Some selector ->
      truthy selector = true ->
      waitForSelector session selector = Ok tt) ->
  waitForSelector session (WebsiteConfig.eventListSelector config) = Ok tt ->
  innerHTML session (WebsiteConfig.eventSectionSelector config) = Ok html ->
  close session = Ok tt ->
  snd (scrapeWebsite host generateObject session config websiteKey)
  = scrapeEvents host (content session)
      (resolvedSelectors generateObject html
         (WebsiteConfig.defaultSelectors config))
      (WebsiteConfig.eventListSelector config) websiteKey
      (WebsiteConfig.venue config) /\
  (forall e,
      generateObject (selectorPrompt html) = Throw e ->
      snd (scrapeWebsite host generateObject session config websiteKey)
      = scrapeEvents host (content session)
          (WebsiteConfig.defaultSelectors config)
          (WebsiteConfig.eventListSelector config) websiteKey
          (WebsiteConfig.venue config)).
Proof.
  intros Hl Hn Hg Hup Hw Hi Hc.
  assert (Hrun : snd (scrapeWebsite host generateObject session config websiteKey)
                 = scrapeEvents host (content session)
                     (resolvedSelectors generateObject html
                        (WebsiteConfig.defaultSelectors config))
                     (WebsiteConfig.eventListSelector config) websiteKey
                     (WebsiteConfig.venue config)).
  { unfold scrapeWebsite, perform, ioBind, tryFinally.
    rewrite Hl, Hn, Hc, scrapePage_calls.
    unfold navigation, forget. rewrite Hg, Hw, Hi.
    destruct (WebsiteConfig.upcomingEventsSelector config) as [selector |]
      eqn:Hsel; [destruct (truthy selector) eqn:Ht |]; cbn;
      [rewrite (Hup selector eq_refl Ht); cbn | |]; reflexivity. }
  split; [exact Hrun |].
  intros e He. rewrite Hrun. unfold resolvedSelectors. now rewrite He.
Qed.

End Website.

(** X14 on the session in which every call succeeds. *)
Lemma scrapeWebsite_closes_witness :
  exists done,
    fst (scrapeWebsite (exampleHost 2026) serviceDown exampleSession
           (stateroomSite "https://thestateroompresents.com/the-state-room"
              "The State Room") (lit "stateroom"))
    = done ++ [Close] /\
    existsb isClose done = false.
Proof.
  destruct (proj2 (proj2 (scrapeWebsite_closes (exampleHost 2026) serviceDown exampleSession
                            (stateroomSite
                               "https://thestateroompresents.com/the-state-room"
                               "The State Room") (lit "stateroom")))
              eq_refl eq_refl) as (done & Hdone & Hnc & _).
  exists done. split; assumption.
Defined.

(** X15 on a site whose event list never shows. *)
Lemma scrapeWebsite_navigation_witness :
  scrapeWebsite (exampleHost 2026) serviceDown timeoutSession
    (stateroomSite "https://thestateroompresents.com/the-state-room"
       "The State Room") (lit "stateroom")
  = ([Output (ConsoleLog
                (lit "Scraping https://thestateroompresents.com/the-state-room"));
      Launch; NewPage;
      Goto (lit "https://thestateroompresents.com/the-state-room");
      WaitForSelector (lit ".d-flex.align-items-center.row");
      Close],
     Throw (Rejected (lit "Timeout 10000ms exceeded"))).
Proof.
  destruct (scrapeWebsite_navigation (exampleHost 2026) serviceDown timeoutSession
              (stateroomSite "https://thestateroompresents.com/the-state-room"
                 "The State Room") (lit "stateroom") eq_refl eq_refl)
    as [Htrace Hfail].
  specialize (Hfail _ eq_refl eq_refl).
  destruct (scrapeWebsite (exampleHost 2026) serviceDown timeoutSession _ _)
    as [trace r].
  cbn [fst snd] in Htrace, Hfail. subst. reflexivity.
Defined.

(** X16 on the example page with the service down. *)
Lemma scrapeWebsite_scrapes_witness :
  snd (scrapeWebsite (exampleHost 2026) serviceDown exampleSession
         (stateroomSite "https://thestateroompresents.com/the-state-room"
            "The State Room") (lit "stateroom"))
  = Ok [ mkEvent (Some (lit "stateroom")) (Some (lit "kuer presents"))
           (Some (lit "$35.50")) (Some (lit "KUER PRESENTS Josh Ritter"))
           (Some (lit "Thu, Jul 4, 2024"))
           (Some (lit "https://tickets.example.com/e/42")) ].
Proof.
  assert (Hup : forall selector : jsstring,
             @None jsstring = Some selector ->
             truthy selector = true ->
             waitForSelector exampleSession selector = Ok tt)
    by discriminate.
  rewrite (proj2 (scrapeWebsite_scrapes (exampleHost 2026) serviceDown
                    exampleSession
                    (stateroomSite
                       "https://thestateroompresents.com/the-state-room"
                       "The State Room")
                    (lit "stateroom") (lit "<div>Mock HTML</div>")
                    eq_refl eq_refl eq_refl Hup eq_refl eq_refl eq_refl)
             (Rejected (lit "LLM failed")) eq_refl).
  vm_compute. reflexivity.
Defined.

(** ** [main] *)

Lemma filesWritten_app (l1 l2 : list action) :
  filesWritten (l1 ++ l2) = filesWritten l1 ++ filesWritten l2.
Proof.
  induction l1 as [| a l1 IH]; [reflexivity |].
  destruct a as [| | url | selector | selector | | [filename json | line] | line e];
    cbn; rewrite ?IH; reflexivity.
Qed.

Lemma untilFailure_page_calls (calls : list (action * result unit)) :
  forallb (fun call => isPageCall (fst call)) calls = true ->
  forallb isPageCall (fst (untilFailure calls)) = true.
Proof.
  induction calls as [| [a [[] | e]] calls IH]; cbn; [reflexivity | |].
  - intros H. apply andb_prop in H as [Ha Hrest]. specialize (IH Hrest).
    destruct (untilFailure calls). cbn in *. now rewrite Ha.
  - intros H. apply andb_prop in H as [Ha _]. now rewrite Ha.
Qed.

Lemma navigation_page_calls (session : Session) (config : WebsiteConfig.t) :
  forallb isPageCall (fst (untilFailure (navigation session config))) = true.
Proof.
  apply untilFailure_page_calls. unfold navigation.
  destruct (WebsiteConfig.upcomingEventsSelector config) as [selector |];
    [destruct (truthy selector) |]; reflexivity.
Qed.

Lemma page_calls_only (calls : list action) :
  forallb isPageCall calls = true ->
  filesWritten calls = [] /\
  filter isLaunch calls = [] /\
  filter isClose calls = [].
Proof.
  induction calls as [| a calls IH]; cbn; [auto |].
  intros H. apply andb_prop in H as [Ha Hrest].
  destruct a; try discriminate; cbn; auto.
Qed.

(** What one call of [scrapeWebsite] does, in order. *)
Lemma scrapeWebsite_trace (host : Host)
    (generateObject : jsstring -> result GenerateObjectResult)
    (session : Session) (config : WebsiteConfig.t) (websiteKey : jsstring) :
  fst (scrapeWebsite host generateObject session config websiteKey)
  = Output (ConsoleLog (lit "Scraping " ++ WebsiteConfig.url config))
      :: Launch
      :: match launch session with
         | Throw _ => []
         | Ok _ =>
             NewPage
               :: match newPage session with
                  | Throw _ => []
                  | Ok _ =>
                      fst (untilFailure (navigation session config)) ++ [Close]
                  end
         end.
Proof.
  unfold scrapeWebsite, perform, ioBind, tryFinally.
  destruct (launch session) as [[] | e]; [| reflexivity].
  destruct (newPage session) as [[] | e]; [| reflexivity].
  rewrite scrapePage_calls.
  destruct (untilFailure (navigation session config)) as [calls [e |]];
    destruct (close session) as [[] | e']; cbn [fst snd app];
    rewrite ?app_nil_r; reflexivity.
Qed.

Lemma scrapeWebsite_counts (host : Host)
    (generateObject : jsstring -> result GenerateObjectResult)
    (session : Session) (config : WebsiteConfig.t) (websiteKey : jsstring) :
  let trace := fst (scrapeWebsite host generateObject session config websiteKey) in
  filesWritten trace = [] /\
  filter isLaunch trace = [Launch] /\
  filter isClose trace = if pageCreated session then [Close] else [].
Proof.
  cbn zeta. rewrite scrapeWebsite_trace. unfold pageCreated.
  destruct (page_calls_only _ (navigation_page_calls session config))
    as (Hw & Hl & Hc).
  destruct (launch session) as [[] | e]; [| cbn; auto].
  destruct (newPage session) as [[] | e]; [| cbn; auto].
  cbn [filesWritten filter isLaunch isClose].
  rewrite filesWritten_app, !filter_app, Hw, Hl, Hc. cbn. auto.
Qed.

Section Main.

Variable host : Host.
Variable generateObject : jsstring -> result GenerateObjectResult.
Variable sessions : jsstring -> Session.

Lemma scrapeSites_events (configs : list (jsstring * WebsiteConfig.t))
    (allEvents : list Event) :
  snd (scrapeSites host generateObject sessions configs allEvents)
  = allEvents ++ flat_map (siteEvents host generateObject sessions) configs.
Proof.
  revert allEvents.
  induction configs as [| [key config] configs IH]; intros allEvents.
  - cbn. now rewrite app_nil_r.
  - cbn [scrapeSites flat_map]. unfold siteEvents at 1. cbn [fst snd].
    destruct (scrapeWebsite host generateObject (sessions key) config key)
      as [done [events | e]]; cbn [snd].
    + specialize (IH (allEvents ++ events)).
      destruct (scrapeSites host generateObject sessions configs
                  (allEvents ++ events)) as [more all].
      cbn [snd] in *. now rewrite IH, app_assoc.
    + specialize (IH allEvents).
      destruct (scrapeSites host generateObject sessions configs allEvents)
        as [more all].
      cbn [snd] in *. exact IH.
Qed.

Lemma scrapeSites_counts (configs : list (jsstring * WebsiteConfig.t))
    (allEvents : list Event) :
  let trace := fst (scrapeSites host generateObject sessions configs allEvents) in
  filesWritten trace = [] /\
  List.length (filter isLaunch trace) = List.length configs /\
  List.length (filter isClose trace)
  = List.length (filter (fun site => pageCreated (sessions (fst site))) configs).
Proof.
  cbn zeta. revert allEvents.
  induction configs as [| [key config] configs IH]; intros allEvents.
  - cbn. auto.
  - cbn [scrapeSites filter List.length fst].
    pose proof (scrapeWebsite_counts host generateObject (sessions key) config key)
      as (Hw & Hl & Hc).
    cbn zeta in Hw, Hl, Hc.
    destruct (scrapeWebsite host generateObject (sessions key) config key)
      as [done [events | e]]; cbn [fst] in Hw, Hl, Hc.
    + specialize (IH (allEvents ++ events)).
      destruct (scrapeSites host generateObject sessions configs
                  (allEvents ++ events)) as [more all].
      cbn [fst] in *. destruct IH as (IHw & IHl & IHc).
      rewrite filesWritten_app, !filter_app, !length_app, Hw, Hl, Hc, IHw, IHl, IHc.
      destruct (pageCreated (sessions key)); cbn; auto.
    + specialize (IH allEvents).
      destruct (scrapeSites host generateObject sessions configs allEvents)
        as [more all].
      cbn [fst] in *. destruct IH as (IHw & IHl & IHc).
      rewrite filesWritten_app, !filter_app, !length_app, Hw, Hl, Hc.
      cbn [filesWritten filter isLaunch isClose].
      rewrite IHw, IHl, IHc.
      destruct (pageCreated (sessions key)); cbn; auto.
Qed.

Lemma scrapeSites_reports (configs : list (jsstring * WebsiteConfig.t))
    (allEvents : list Event) (key : jsstring) (config : WebsiteConfig.t)
    (e : error) :
  In (key, config) configs ->
  snd (scrapeWebsite host generateObject (sessions key) config key) = Throw e ->
  In (ConsoleError (lit "Error scraping " ++ key ++ lit ":") e)
     (fst (scrapeSites host generateObject sessions configs allEvents)).
Proof.
  revert allEvents.
  induction configs as [| [key' config'] configs IH]; intros allEvents Hin He;
    [destruct Hin |].
  cbn [scrapeSites].
  destruct Hin as [Heq | Hin].
  - injection Heq as -> ->.
    destruct (scrapeWebsite host generateObject (sessions key) config key)
      as [done r].
    cbn [snd] in He. subst r.
    destruct (scrapeSites host generateObject sessions configs allEvents)
      as [more all].
    cbn [fst]. apply in_or_app. right. left. reflexivity.
  - destruct (scrapeWebsite host generateObject (sessions key') config' key')
      as [done [events | e']].
    + specialize (IH (allEvents ++ events) Hin He).
      destruct (scrapeSites host generateObject sessions configs
                  (allEvents ++ events)) as [more all].
      cbn [fst] in *. apply in_or_app. now right.
    + specialize (IH allEvents Hin He).
      destruct (scrapeSites host generateObject sessions configs allEvents)
        as [more all].
      cbn [fst] in *. apply in_or_app. right. now right.
Qed.

Lemma main_files (process : Process)
    (configs : list (jsstring * WebsiteConfig.t)) :
  filesWritten (main host generateObject process sessions configs)
  = [ (pathJoin process (dirname process)
         (lit "event_data_" ++ hd [] (split "T"%char (nowISO process))
            ++ lit ".json"),
       filter isComplete
         (flat_map (siteEvents host generateObject sessions) configs)) ].
Proof.
  unfold main.
  pose proof (scrapeSites_events configs []) as Hev.
  pose proof (scrapeSites_counts configs []) as (Hw & _).
  cbn zeta in Hw.
  destruct (scrapeSites host generateObject sessions configs []) as [done all].
  cbn [fst snd app] in *. subst all.
  rewrite filesWritten_app, Hw. reflexivity.
Qed.

(** X17.  A run of [main] ends with the saving of the events of the
    sites whose scrape returned, in the order of the table, a site whose
    scrape throws adding nothing; nothing is written before, so that the
    run writes exactly one file, whatever the sites do: the file named
    after the date of the run in the directory of the program, holding
    the complete records among those events. *)
Theorem main_writes_once (process : Process)
    (configs : list (jsstring * WebsiteConfig.t)) :
  let allEvents := flat_map (siteEvents host generateObject sessions) configs in
  let filename :=
    pathJoin process (dirname process)
      (lit "event_data_" ++ hd [] (split "T"%char (nowISO process))
         ++ lit ".json") in
  (exists done,
      main host generateObject process sessions configs
      = done ++ map Output (saveToJson allEvents filename) /\
      filesWritten done = []) /\
  filesWritten (main host generateObject process sessions configs)
  = [ (filename, filter isComplete allEvents) ].
Proof.
  cbn zeta. split; [| apply main_files].
  unfold main.
  pose proof (scrapeSites_events configs []) as Hev.
  pose proof (scrapeSites_counts configs []) as (Hw & _).
  cbn zeta in Hw.
  destruct (scrapeSites host generateObject sessions configs []) as [done all].
  cbn [fst snd app] in *. subst all.
  exists done. split; [reflexivity | exact Hw].
Qed.

(** X18.  A site whose scrape throws does not end the run: the failure
    is reported on the error console under the key of the site, and the
    file written is the one of a run without that site. *)
Theorem main_failure_isolated (process : Process)
    (before after : list (jsstring * WebsiteConfig.t))
    (key : jsstring) (config : WebsiteConfig.t) (e : error) :
  snd (scrapeWebsite host generateObject (sessions key) config key) = Throw e ->
  In (ConsoleError (lit "Error scraping " ++ key ++ lit ":") e)
     (main host generateObject process sessions (before ++ (key, config) :: after)) /\
  filesWritten
    (main host generateObject process sessions (before ++ (key, config) :: after))
  = filesWritten (main host generateObject process sessions (before ++ after)).
Proof.
  intros He. split.
  - unfold main.
    pose proof (scrapeSites_reports (before ++ (key, config) :: after) []
                  key config e) as Hrep.
    destruct (scrapeSites host generateObject sessions
                (before ++ (key, config) :: after) []) as [done all].
    apply in_or_app. left. apply Hrep; [| exact He].
    apply in_or_app. right. left. reflexivity.
  - rewrite !main_files, !flat_map_app. cbn [flat_map].
    unfold siteEvents at 2. cbn [fst snd]. rewrite He. reflexivity.
Qed.

(** X19.  A run launches one browser for each site of the table, and
    closes one for each site whose browser gave a page: a browser whose
    page could not be created is left open. *)
Theorem main_browsers (process : Process)
    (configs : list (jsstring * WebsiteConfig.t)) :
  let trace := main host generateObject process sessions configs in
  List.length (filter isLaunch trace) = List.length configs /\
  List.length (filter isClose trace)
  = List.length (filter (fun site => pageCreated (sessions (fst site))) configs).
Proof.
  cbn zeta. unfold main.
  pose proof (scrapeSites_counts configs []) as (_ & Hl & Hc).
  cbn zeta in Hl, Hc.
  destruct (scrapeSites host generateObject sessions configs []) as [done all].
  cbn [fst] in *.
  rewrite !filter_app, !length_app, Hl, Hc. cbn. lia.
Qed.

Lemma split_first (sep : ascii) (a b : jsstring) :
  existsb (fun c => Ascii.eqb c sep) a = false ->
  hd [] (split sep (a ++ sep :: b)) = a.
Proof.
  induction a as [| c a IH]; cbn.
  - now rewrite Ascii.eqb_refl.
  - intros H. apply orb_false_elim in H as [Hc Ha]. rewrite Hc.
    specialize (IH Ha).
    destruct (split sep (a ++ sep :: b)) as [| piece pieces] eqn:Hs.
    + now destruct (split_nonempty _ _ Hs).
    + cbn in *. now rewrite IH.
Qed.

(** X20.  The name of the file carries the date part of the time stamp
    of the run, the text before its first T. *)
Theorem main_filename_date (process : Process)
    (configs : list (jsstring * WebsiteConfig.t)) (day time : jsstring) :
  nowISO process = day ++ "T"%char :: time ->
  existsb (fun c => Ascii.eqb c "T") day = false ->
  map fst (filesWritten (main host generateObject process sessions configs))
  = [ pathJoin process (dirname process)
        (lit "event_data_" ++ day ++ lit ".json") ].
Proof.
  intros Hnow Hday. rewrite main_files, Hnow, split_first by exact Hday.
  reflexivity.
Qed.

End Main.

(** X18 on the table of the program when the list of one site never
    shows. *)
Lemma main_failure_isolated_witness :
  let run := main (exampleHost 2026) serviceDown exampleProcess
               (flakySessions (lit "deervalley")) in
  In (ConsoleError (lit "Error scraping deervalley:")
        (Rejected (lit "Timeout 10000ms exceeded")))
     (run websiteConfigs) /\
  filesWritten (run websiteConfigs)
  = filesWritten (run (firstn 1 websiteConfigs ++ skipn 2 websiteConfigs)).
Proof.
  exact (main_failure_isolated (exampleHost 2026) serviceDown
           (flakySessions (lit "deervalley")) exampleProcess
           [(lit "stateroompresents",
             stateroomSite "https://thestateroompresents.com/stateroompresents"
               "The State Room Presents")]
           (skipn 2 websiteConfigs)
           (lit "deervalley")
           (stateroomSite "https://thestateroompresents.com/deer-valley"
              "Deer Valley Concert Series")
           (Rejected (lit "Timeout 10000ms exceeded")) eq_refl).
Defined.

(** X20 on a run of 4 July 2024. *)
Lemma main_filename_date_witness :
  map fst (filesWritten (main (exampleHost 2026) serviceDown exampleProcess
                           (fun _ => exampleSession) websiteConfigs))
  = [ lit "/app/event_data_2024-07-04.json" ].
Proof.
  exact (main_filename_date (exampleHost 2026) serviceDown
           (fun _ => exampleSession) exampleProcess websiteConfigs
           (lit "2024-07-04") (lit "18:30:00.000Z") eq_refl eq_refl).
Defined.

(** ** The table of sites *)

Lemma scrapeBlock_all_fields (host : Host) (element : ElementHandle)
    (venueName websiteKey : jsstring) (selectors : SelectorSet) (record : Event) :
  NoDup (map fst selectors) ->
  (forall k, In k [Kvenue; Kprice; Kdate; KticketLink] ->
             selectorFor k selectors <> None) ->
  venueName <> [] ->
  scrapeBlock host element venueName selectors websiteKey = Ok record ->
  website record = Some websiteKey /\
  (exists v, venue record = Some v /\ v <> []) /\
  price record <> None /\
  event record <> None /\
  date record <> None /\
  ticketLink record <> None.
Proof.
  intros Hnodup Hkeys Hname Hrec.
  destruct (scrapeBlock_record _ _ _ _ _ _ Hnodup Hrec) as (d & Hd & ->).
  cbn [website venue price event date ticketLink].
  pose proof (Hkeys Kvenue (or_introl eq_refl)) as Hv.
  pose proof (Hkeys Kprice (or_intror (or_introl eq_refl))) as Hp.
  pose proof (Hkeys Kdate (or_intror (or_intror (or_introl eq_refl)))) as Hdt.
  pose proof (Hkeys KticketLink
                (or_intror (or_intror (or_intror (or_introl eq_refl))))) as Hl.
  unfold venueValue, priceValue, linkValue. unfold dateValue in Hd.
  destruct (selectorFor Kvenue selectors) as [sv |]; [| congruence].
  destruct (selectorFor Kprice selectors) as [sp |]; [| congruence].
  destruct (selectorFor Kdate selectors) as [sd |]; [| congruence].
  destruct (selectorFor KticketLink selectors) as [sl |]; [| congruence].
  destruct (formatDate (currentYear host) (textAt element sd)) as [text | e];
    [| discriminate].
  injection Hd as <-. cbn [option_map].
  repeat split; try discriminate.
  eexists. split; [reflexivity |].
  destruct (truthy (textAt element sv)) eqn:Ht;
    [now apply truthy_iff | exact Hname].
Qed.

(** X21.  With the default selectors of a site of the table every field
    of the record of a block is set, the site key as it is in the table
    and a venue that is never empty: what the output cleaning can find
    missing in such a record is an empty price, title, date or link. *)
Theorem configured_site_records (host : Host) (element : ElementHandle)
    (key : jsstring) (config : WebsiteConfig.t) (record : Event) :
  In (key, config) websiteConfigs ->
  scrapeBlock host element (WebsiteConfig.venue config)
    (WebsiteConfig.defaultSelectors config) key = Ok record ->
  website record = Some key /\
  (exists v, venue record = Some v /\ v <> []) /\
  price record <> None /\
  event record <> None /\
  date record <> None /\
  ticketLink record <> None.
Proof.
  intros Hin Hrec.
  assert (Hsite :
            NoDup (map fst (WebsiteConfig.defaultSelectors config)) /\
            (forall k, In k [Kvenue; Kprice; Kdate; KticketLink] ->
                       selectorFor k (WebsiteConfig.defaultSelectors config)
                       <> None) /\
            WebsiteConfig.venue config <> []).
  { unfold websiteConfigs in Hin. cbn [In] in Hin.
    repeat (destruct Hin as [Heq | Hin];
            [apply pair_equal_spec in Heq as [_ <-];
             (split; [| split]);
             [ repeat constructor; cbn; intuition discriminate
             | intros k [<- | [<- | [<- | [<- | []]]]]; discriminate
             | discriminate ] |]).
    destruct Hin. }
  destruct Hsite as (Hnodup & Hkeys & Hname).
  exact (scrapeBlock_all_fields _ _ _ _ _ _ Hnodup Hkeys Hname Hrec).
Qed.

(** X21 on the example block, read as a block of the site [stateroom]. *)
Lemma configured_site_records_witness :
  exists record,
    scrapeBlock (exampleHost 2026) exampleBlock (lit "The State Room")
      stateroomSelectors (lit "stateroom") = Ok record /\
    website record = Some (lit "stateroom") /\
    price record <> None.
Proof.
  eexists. split; [vm_compute; reflexivity |].
  assert (Hin : In (lit "stateroom",
                    stateroomSite "https://thestateroompresents.com/the-state-room"
                      "The State Room") websiteConfigs)
    by (right; right; left; reflexivity).
  destruct (configured_site_records (exampleHost 2026) exampleBlock _ _ _ Hin
              eq_refl) as (Hw & _ & Hp & _).
  split; [exact Hw | exact Hp].
Defined.
